(** * Emotion quintile-analysis engine of [dialogos]

    A shallow embedding of [SentimentProcessor]
    (src/backend/processors/sentiment_processor.py) and the properties its
    specification states about it.

    Modelling conventions.
    - Python floats (times, scores, weights) are exact rationals [Q];
      numeric comparison [==] of Python is [Qeq], so results are stated up
      to [Qeq] and never through the shape of a fraction.  The bucket
      computation, where rounding can change the result, is also given
      with an explicit rounding ([float_determine_quintile]).
    - JSON objects are records whose optional keys are [option] fields; a
      [dict.get(k, d)] is a match on the field with default [d].
    - A pandas DataFrame is the list of its rows.  A row keeps the filled
      [sentiment_i]/[sentiment_score_i] cells as the list [sentiments]
      (slot [i] is element [i-1]); a missing cell (NaN) is a missing element.
    - Python dicts are association lists in insertion order, because
      [max] and [sorted] break ties by that order.
    - The iteration order of a Python [set] of strings is not fixed by the
      language: the vocabulary code takes it as the parameter [set_iter].
    - [sorted] is stable; [DataFrame.sort_values] is modelled as stable too
      (pandas leaves the order of equal keys open; no property below
      depends on it).
    - Emotion names are strings (the data model's [name: string]). *)

From Stdlib Require Import ZArith QArith Qround Qminmax Qabs.
From Stdlib Require Import List String Ascii Bool Lia Permutation Sorted DecimalString.
From Stdlib Require Import Setoid Morphisms Lqa.
Import ListNotations.

Local Open Scope Q_scope.

(* ================================================================== *)
(** ** Generic helpers mirroring Python built-ins *)

Section StableSort.
Context {A : Type}.
(** [precedes y x]: [y] has to stay in front of a newly inserted [x]. *)
Variable precedes : A -> A -> bool.

Fixpoint insert_sorted (x : A) (l : list A) : list A :=
  match l with
  | [] => [x]
  | y :: t => if precedes y x then y :: insert_sorted x t else x :: y :: t
  end.

(** Stable insertion sort: equal elements keep their original order. *)
Fixpoint stable_sort (l : list A) : list A :=
  match l with
  | [] => []
  | x :: t => insert_sorted x (stable_sort t)
  end.
End StableSort.

Definition Qlt_bool (a b : Q) : bool := negb (Qle_bool b a).

(** Python [int(x)] on a float: truncation toward zero. *)
Definition py_int (x : Q) : Z := Z.quot (Qnum x) (Zpos (Qden x)).

(** [sum] of a numeric column. *)
Definition Qsum (l : list Q) : Q := fold_left Qplus l 0.

(** [sorted(l, key=..., reverse=True)] for a rational key. *)
Definition sorted_desc {A : Type} (key : A -> Q) (l : list A) : list A :=
  stable_sort (fun y x => Qlt_bool (key x) (key y)) l.

(** First element with the largest key: Python's [max(l, key=...)]. *)
Fixpoint max_by {A : Type} (key : A -> Q) (best : A) (l : list A) : A :=
  match l with
  | [] => best
  | x :: t => max_by key (if Qlt_bool (key best) (key x) then x else best) t
  end.

(** [str.isdigit] on an ASCII string: non-empty, every character in 0..9. *)
Definition is_digit_char (c : ascii) : bool :=
  let n := nat_of_ascii c in (48 <=? n)%nat && (n <=? 57)%nat.

Fixpoint all_digits (s : string) : bool :=
  match s with
  | EmptyString => true
  | String c t => is_digit_char c && all_digits t
  end.

Definition isdigit (s : string) : bool :=
  match s with
  | EmptyString => false
  | _ => all_digits s
  end.

(* ================================================================== *)
(** ** The prediction payload (JSON, read-only input) *)

Record Emotion := {
  name : option string;
  score : option Q
}.

Record TimeRange := {
  time_begin : option Q;
  time_end : option Q
}.

(** One timed span.  A prosody span carries ["emotions"], a language span
    ["sentiment"]; the code probes for the key it wants. *)
Record Span := {
  time : option TimeRange;
  text : option string;
  emotions : option (list Emotion);
  sentiment : option (list Emotion)
}.

Record SpeakerGroup := {
  id : option string;
  group_predictions : option (list Span)
}.

Record ModelData := {
  grouped_predictions : option (list SpeakerGroup)
}.

Record Models := {
  prosody : option ModelData;
  language : option ModelData
}.

Record ResultItem := {
  models : option Models
}.

Record Results := {
  result_predictions : option (list ResultItem)
}.

Record PredItem := {
  has_source : bool;
  results : option Results
}.

(** [self.predictions]: nothing loaded (or an empty container), a
    non-empty mapping, or a list of source/results wrappers. *)
Inductive Predictions :=
| NoPredictions
| DictPredictions
| ListPredictions (items : list PredItem).

(* ================================================================== *)
(** ** Segment Normalizer: [process_sentiment_data], lines 112-207 *)

(** The [segment_data] dict. *)
Record SegmentData := {
  speaker_id : string;
  start_time : Q;
  end_time : Q;
  seg_text : string;
  sentiments : list (string * Q)
}.

Definition get_name (e : Emotion) : string :=
  match name e with Some n => n | None => "Unknown"%string end.

Definition get_score (e : Emotion) : Q :=
  match score e with Some s => s | None => 0 end.

Definition get_begin (s : Span) : Q :=
  match time s with
  | Some t => match time_begin t with Some b => b | None => 0 end
  | None => 0
  end.

Definition get_end (s : Span) : Q :=
  match time s with
  | Some t => match time_end t with Some b => b | None => 0 end
  | None => 0
  end.

Definition get_text (s : Span) : string :=
  match text s with Some t => t | None => EmptyString end.

Definition get_id (g : SpeakerGroup) : string :=
  match id g with Some i => i | None => "unknown"%string end.

(** Sort by score descending, keep the first 15, store name and score in
    slots 1.. *)
Definition top_slots (l : list Emotion) : list (string * Q) :=
  map (fun e => (get_name e, get_score e)) (firstn 15 (sorted_desc get_score l)).

Definition prosody_segment (speaker : string) (s : Span) : SegmentData :=
  {| speaker_id := speaker;
     start_time := get_begin s;
     end_time := get_end s;
     seg_text := get_text s;
     sentiments := match emotions s with Some es => top_slots es | None => [] end |}.

Definition language_segment (speaker : string) (s : Span) : SegmentData :=
  {| speaker_id := speaker;
     start_time := get_begin s;
     end_time := get_end s;
     seg_text := get_text s;
     sentiments := match sentiment s with Some es => top_slots es | None => [] end |}.

(** The rows a channel offers, in traversal order (speaker groups, then
    their spans). *)
Definition channel_rows (mk : string -> Span -> SegmentData) (md : ModelData)
  : list SegmentData :=
  match grouped_predictions md with
  | None => []
  | Some groups =>
      flat_map (fun g =>
        match group_predictions g with
        | None => []
        | Some spans => map (mk (get_id g)) spans
        end) groups
  end.

Definition prosody_rows : ModelData -> list SegmentData := channel_rows prosody_segment.
Definition language_rows : ModelData -> list SegmentData := channel_rows language_segment.

(** The test of lines 204-206 against one collected entry [d]. *)
Definition same_key (speaker : string) (st en : Q) (d : SegmentData) : bool :=
  String.eqb (speaker_id d) speaker
  && Qeq_bool (start_time d) st
  && Qeq_bool (end_time d) en.

Definition key_of (k d : SegmentData) : bool :=
  same_key (speaker_id k) (start_time k) (end_time k) d.

(** Lines 204-207: a language row is appended unless some collected entry
    has its key. *)
Definition append_language (data : list SegmentData) (sd : SegmentData)
  : list SegmentData :=
  if existsb (same_key (speaker_id sd) (start_time sd) (end_time sd)) data
  then data
  else data ++ [sd].

Definition collect_prosody (data : list SegmentData) (md : ModelData) :=
  data ++ prosody_rows md.

Definition collect_language (data : list SegmentData) (md : ModelData) :=
  fold_left append_language (language_rows md) data.

Definition collect_result_item (data : list SegmentData) (ri : ResultItem)
  : list SegmentData :=
  let data1 :=
    match models ri with
    | Some m => match prosody m with
                | Some p => collect_prosody data p
                | None => data
                end
    | None => data
    end in
  match models ri with
  | Some m => match language m with
              | Some l => collect_language data1 l
              | None => data1
              end
  | None => data1
  end.

Definition collect_pred_item (data : list SegmentData) (pi : PredItem)
  : list SegmentData :=
  if has_source pi then
    match results pi with
    | Some r => match result_predictions r with
                | Some ris => fold_left collect_result_item ris data
                | None => data
                end
    | None => data
    end
  else data.

(** The list [data] after the traversal. *)
Definition extract_data (p : Predictions) : list SegmentData :=
  match p with
  | ListPredictions items => fold_left collect_pred_item items []
  | _ => []
  end.

(** [df.sort_values('start_time')]. *)
Definition sort_values (data : list SegmentData) : list SegmentData :=
  stable_sort (fun y x => Qlt_bool (start_time y) (start_time x)) data.

(** [df['end_time'].max()]; the code only calls it on a non-empty frame. *)
Definition end_time_max (data : list SegmentData) : Q :=
  match data with
  | [] => 0
  | d :: t => fold_left (fun m x => Qmax m (end_time x)) t (end_time d)
  end.

(* ================================================================== *)
(** ** [_determine_quintile], lines 274-300 *)

Definition determine_quintile (conversation_length start_t end_t : Q) : Z :=
  if Qeq_bool conversation_length 0 then 0%Z
  else
    let midpoint := (start_t + end_t) / 2 in
    let quintile_size := conversation_length / 5 in
    let quintile := py_int (midpoint / quintile_size) in
    if (quintile =? 5)%Z then 4%Z else quintile.

(** A row of [df] once the [quintile] column is added. *)
Record Row := {
  seg : SegmentData;
  quintile : Z
}.

Definition add_quintile (conversation_length : Q) (data : list SegmentData)
  : list Row :=
  map (fun d => {| seg := d;
                   quintile := determine_quintile conversation_length
                                 (start_time d) (end_time d) |}) data.

(* ================================================================== *)
(** ** Columns of the frame *)

(** [col in df.columns] for [col = sentiment_i]: the frame built from the
    list of dicts has the column iff some dict has the key. *)
Definition has_column (i : nat) (df : list Row) : bool :=
  existsb (fun r => (i <=? List.length (sentiments (seg r)))%nat) df.

(** The cell [(sentiment_i, sentiment_score_i)] of a row; [None] is NaN. *)
Definition slot (i : nat) (r : Row) : option (string * Q) :=
  nth_error (sentiments (seg r)) (i - 1).

(** [df[col].dropna()] for [col = sentiment_i]. *)
Definition column_names (i : nat) (df : list Row) : list string :=
  flat_map (fun r => match slot i r with
                     | Some (n, _) => [n]
                     | None => []
                     end) df.

(** [Series.unique()]: distinct values in order of first appearance. *)
Fixpoint unique (l : list string) : list string :=
  match l with
  | [] => []
  | x :: t => x :: filter (fun y => negb (String.eqb x y)) (unique t)
  end.

(** [range(1, 16)]. *)
Definition slot_indices : list nat := seq 1 15.

(* ================================================================== *)
(** ** Vocabulary Selector, lines 236-255 *)

(** The values handed to [all_sentiments.update], in order. *)
Definition inserted_sentiments (df : list Row) : list string :=
  flat_map (fun i => if has_column i df then unique (column_names i df) else [])
           slot_indices.

(** [(df[col] == sentiment).sum()] added up over the fifteen columns. *)
Definition sentiment_count (df : list Row) (sentiment : string) : nat :=
  fold_left (fun count i =>
               if has_column i df
               then (count + List.length (filter (String.eqb sentiment) (column_names i df)))%nat
               else count)
            slot_indices 0%nat.

Section Vocabulary.
(** Iteration order of the set built by inserting the given values. *)
Variable set_iter : list string -> list string.

Definition all_sentiments (df : list Row) : list string :=
  set_iter (inserted_sentiments df).

(** The dict [sentiment_counts], in insertion order. *)
Definition sentiment_counts (df : list Row) : list (string * nat) :=
  map (fun s => (s, sentiment_count df s)) (all_sentiments df).

(** [sorted(sentiment_counts.items(), key=lambda x: x[1], reverse=True)],
    then the names of the first 15. *)
Definition compute_top_sentiments (df : list Row) : list string :=
  map fst (firstn 15
    (stable_sort (fun y x => (snd x <? snd y)%nat) (sentiment_counts df))).
End Vocabulary.

(* ================================================================== *)
(** ** Flattened table: [_create_streamlined_data], lines 403-434 *)

Inductive Cell :=
| CStr (s : string)
| CNum (q : Q)
| CInt (z : Z).

(** A row of [streamlined_df]: column label to cell, in column order. *)
Definition StreamRow := list (string * Cell).

(** Assignment to a column of one row: overwrite when the label exists,
    append a new column otherwise. *)
Fixpoint set_cell (col : string) (v : Cell) (r : StreamRow) : StreamRow :=
  match r with
  | [] => [(col, v)]
  | (c, w) :: t => if String.eqb c col then (c, v) :: t
                   else (c, w) :: set_cell col v t
  end.

Fixpoint get_cell (col : string) (r : StreamRow) : option Cell :=
  match r with
  | [] => None
  | (c, w) :: t => if String.eqb c col then Some w else get_cell col t
  end.

(** [df[['speaker_id', 'start_time', 'end_time', 'text', 'quintile']].copy()]. *)
Definition base_row (r : Row) : StreamRow :=
  [ ("speaker_id"%string, CStr (speaker_id (seg r)));
    ("start_time"%string, CNum (start_time (seg r)));
    ("end_time"%string, CNum (end_time (seg r)));
    ("text"%string, CStr (seg_text (seg r)));
    ("quintile"%string, CInt (quintile r)) ].

(** Lines 423-427 for one slot index: rows whose slot [i] names
    [sentiment] receive that slot's score. *)
Definition fill_slot (sentiment : string) (df : list Row)
  (t : list StreamRow) (i : nat) : list StreamRow :=
  if has_column i df then
    map (fun p : Row * StreamRow =>
           match slot i (fst p) with
           | Some (n, s) => if String.eqb n sentiment
                            then set_cell sentiment (CNum s) (snd p)
                            else snd p
           | None => snd p
           end) (combine df t)
  else t.

(** Lines 415-427 for one vocabulary entry. *)
Definition add_sentiment_column (df : list Row) (t : list StreamRow)
  (sentiment : string) : list StreamRow :=
  fold_left (fill_slot sentiment df) slot_indices
            (map (set_cell sentiment (CNum 0)) t).

Definition create_streamlined_data (top_sentiments : list string)
  (df : list Row) : list StreamRow :=
  fold_left (add_sentiment_column df) top_sentiments (map base_row df).

(* ================================================================== *)
(** ** Quintile Aggregator: [_analyze_quintiles], lines 302-401 *)

Definition duration (r : Row) : Q := end_time (seg r) - start_time (seg r).

Definition total_duration (quintile_data : list Row) : Q :=
  Qsum (map duration quintile_data).

(** Line 347. *)
Definition weight (total : Q) (r : Row) : Q :=
  if Qlt_bool 0 total then duration r / total else 0.

(** Lines 361-362. *)
Definition relabel (sentiment_name : string) : string :=
  if isdigit sentiment_name then ("Emotion_" ++ sentiment_name)%string
  else sentiment_name.

(** Lines 365-369 on the dict [weighted_emotions]. *)
Fixpoint add_weighted (n : string) (v : Q) (w : list (string * Q))
  : list (string * Q) :=
  match w with
  | [] => [(n, 0 + v)]
  | (m, x) :: t => if String.eqb m n then (m, x + v) :: t
                   else (m, x) :: add_weighted n v t
  end.

(** Lines 350-369 for one slot index of one segment. *)
Definition accumulate_slot (df : list Row) (wt : Q) (r : Row)
  (w : list (string * Q)) (i : nat) : list (string * Q) :=
  if has_column i df then
    match slot i r with
    | Some (n, s) => add_weighted (relabel n) (s * wt) w
    | None => w
    end
  else w.

(** Lines 345-369 for one segment. *)
Definition accumulate_segment (df : list Row) (total : Q)
  (w : list (string * Q)) (r : Row) : list (string * Q) :=
  fold_left (accumulate_slot df (weight total r) r) slot_indices w.

Definition weighted_emotions (df quintile_data : list Row) : list (string * Q) :=
  fold_left (accumulate_segment df (total_duration quintile_data)) quintile_data [].

(** The formatted [time_range] string is kept as its two bounds. *)
Record QuintileRecord := {
  time_range : Q * Q;
  dominant_emotion : string;
  emotion_score : Q;
  top_emotions : list (string * Q)
}.

(** [f"quintile_{quintile+1}"]. *)
Definition quintile_label (q : nat) : string :=
  ("quintile_" ++ NilZero.string_of_uint (Nat.to_uint (q + 1)))%string.

Definition speaker_rows (df : list Row) (speaker : string) : list Row :=
  filter (fun r => String.eqb (speaker_id (seg r)) speaker) df.

Definition quintile_rows (speaker_data : list Row) (q : nat) : list Row :=
  filter (fun r => (quintile r =? Z.of_nat q)%Z) speaker_data.

(** Lines 329-391 for one bucket: the entry added to [speaker_quintiles],
    if any. *)
Definition analyze_quintile (conversation_length : Q) (df speaker_data : list Row)
  (q : nat) : option (string * QuintileRecord) :=
  match quintile_rows speaker_data q with
  | [] => None
  | quintile_data =>
      match weighted_emotions df quintile_data with
      | [] => None
      | first :: rest =>
          let dominant := max_by snd first rest in
          let quintile_size := conversation_length / 5 in
          Some (quintile_label q,
                {| time_range := (inject_Z (Z.of_nat q) * quintile_size,
                                  (inject_Z (Z.of_nat q) + 1) * quintile_size);
                   dominant_emotion := fst dominant;
                   emotion_score := snd dominant;
                   top_emotions := firstn 5 (sorted_desc snd (first :: rest)) |})
      end
  end.

Definition speaker_quintiles (conversation_length : Q) (df : list Row)
  (speaker : string) : list (string * QuintileRecord) :=
  flat_map (fun q => match analyze_quintile conversation_length df
                             (speaker_rows df speaker) q with
                     | Some e => [e]
                     | None => []
                     end) (seq 0 5).

Record Report := {
  conversation_length_seconds : Q;
  speakers : list (string * list (string * QuintileRecord))
}.

Definition analyze_quintiles (conversation_length : Q) (df : list Row) : Report :=
  {| conversation_length_seconds := conversation_length;
     speakers := map (fun sp => (sp, speaker_quintiles conversation_length df sp))
                     (unique (map (fun r => speaker_id (seg r)) df)) |}.

(* ================================================================== *)
(** ** The processor object and [process_sentiment_data], lines 99-272 *)

Inductive ProcessedData :=
| NoData
| StreamlinedData (t : list StreamRow)
| FrameData (df : list Row).

(** The attributes of [self] the engine reads or writes.  [None] in
    [quintile_analysis] is the initial empty dict. *)
Record Processor := {
  predictions : Predictions;
  processed_data : ProcessedData;
  top_sentiments : list string;
  quintile_analysis : option Report;
  conversation_length : Q
}.

(** [__init__] followed by [_load_predictions]. *)
Definition new_processor (p : Predictions) : Processor :=
  {| predictions := p;
     processed_data := NoData;
     top_sentiments := [];
     quintile_analysis := None;
     conversation_length := 0 |}.

Definition set_conversation_length (self : Processor) (v : Q) : Processor :=
  {| predictions := predictions self;
     processed_data := processed_data self;
     top_sentiments := top_sentiments self;
     quintile_analysis := quintile_analysis self;
     conversation_length := v |}.

Definition set_top_sentiments (self : Processor) (v : list string) : Processor :=
  {| predictions := predictions self;
     processed_data := processed_data self;
     top_sentiments := v;
     quintile_analysis := quintile_analysis self;
     conversation_length := conversation_length self |}.

Definition set_processed_data (self : Processor) (v : ProcessedData) : Processor :=
  {| predictions := predictions self;
     processed_data := v;
     top_sentiments := top_sentiments self;
     quintile_analysis := quintile_analysis self;
     conversation_length := conversation_length self |}.

Definition set_quintile_analysis (self : Processor) (v : option Report) : Processor :=
  {| predictions := predictions self;
     processed_data := processed_data self;
     top_sentiments := top_sentiments self;
     quintile_analysis := v;
     conversation_length := conversation_length self |}.

Definition _determine_quintile (self : Processor) (start_t end_t : Q) : Z :=
  determine_quintile (conversation_length self) start_t end_t.

Definition _create_streamlined_data (self : Processor) (df : list Row) : Processor :=
  set_processed_data self
    (StreamlinedData (create_streamlined_data (top_sentiments self) df)).

Definition _analyze_quintiles (self : Processor) (df : list Row) : Processor :=
  set_quintile_analysis self
    (Some (analyze_quintiles (conversation_length self) df)).

Section Engine.
Variable set_iter : list string -> list string.

(** The new state of [self] and the returned frame ([None] for Python's
    [None]). *)
Definition process_sentiment_data (self : Processor)
  : Processor * option (list Row) :=
  match predictions self with
  | NoPredictions => (self, None)
  | p =>
      match extract_data p with
      | [] => (self, None)
      | data =>
          let sorted := sort_values data in
          let self1 := set_conversation_length self (end_time_max sorted) in
          let df := map (fun d => {| seg := d;
                                     quintile := _determine_quintile self1
                                                   (start_time d) (end_time d) |})
                        sorted in
          let self2 := set_top_sentiments self1 (compute_top_sentiments set_iter df) in
          let self3 := _create_streamlined_data self2 df in
          let self4 := _analyze_quintiles self3 df in
          (set_processed_data self4 (FrameData df), Some df)
      end
  end.
End Engine.

(** The frame [df] of a payload: sorted rows with their quintile column. *)
Definition segment_table (p : Predictions) : list Row :=
  let sorted := sort_values (extract_data p) in
  add_quintile (end_time_max sorted) sorted.


(** The report stored in [self.quintile_analysis] for a payload. *)
Definition quintile_report (p : Predictions) : Report :=
  analyze_quintiles (end_time_max (sort_values (extract_data p))) (segment_table p).

(* ================================================================== *)
(** ** What each channel of a payload offers

    These follow the traversal of lines 118-177 without the collection
    into [data]; the properties below relate them to [extract_data]. *)

Definition item_prosody_rows (ri : ResultItem) : list SegmentData :=
  match models ri with
  | Some m => match prosody m with Some p => prosody_rows p | None => [] end
  | None => []
  end.

Definition item_language_rows (ri : ResultItem) : list SegmentData :=
  match models ri with
  | Some m => match language m with Some l => language_rows l | None => [] end
  | None => []
  end.

Definition pred_item_results (pi : PredItem) : list ResultItem :=
  if has_source pi then
    match results pi with
    | Some r => match result_predictions r with Some ris => ris | None => [] end
    | None => []
    end
  else [].

Definition payload_result_items (p : Predictions) : list ResultItem :=
  match p with
  | ListPredictions items => flat_map pred_item_results items
  | _ => []
  end.

Definition payload_prosody_rows (p : Predictions) : list SegmentData :=
  flat_map item_prosody_rows (payload_result_items p).

Definition payload_language_rows (p : Predictions) : list SegmentData :=
  flat_map item_language_rows (payload_result_items p).

(** Number of entries of [l] with the key of [k]. *)
Definition count_key (k : SegmentData) (l : list SegmentData) : nat :=
  List.length (filter (key_of k) l).

(* ================================================================== *)
(** ** The flattened table as the specification words it *)

(** Score of the last slot, among slots 1..15, that carries the name [v];
    0.0 when no slot does. *)
Definition last_matching_score (v : string) (slots : list (string * Q)) : Q :=
  match find (fun p => String.eqb (fst p) v) (rev (firstn 15 slots)) with
  | Some p => snd p
  | None => 0
  end.

(* ================================================================== *)
(** ** Row-wise reading of [_create_streamlined_data]

    The column assignments of lines 415-427 act on each row separately;
    these are the per-row steps, related to [create_streamlined_data] by
    [create_streamlined_data_rows] below. *)

(** What lines 423-427 do to one row of [streamlined_df]. *)
Definition fill_cell (sentiment : string) (r : Row) (sr : StreamRow) (i : nat)
  : StreamRow :=
  match slot i r with
  | Some (n, s) => if String.eqb n sentiment
                   then set_cell sentiment (CNum s) sr else sr
  | None => sr
  end.

(** What lines 415-427 do to one row, for one vocabulary entry. *)
Definition row_add (r : Row) (sr : StreamRow) (sentiment : string) : StreamRow :=
  fold_left (fill_cell sentiment r) slot_indices (set_cell sentiment (CNum 0) sr).

(** The loop over the slot indices, on the value of the cell alone. *)
Definition scan_value (v : string) (r : Row) (acc : Q) (i : nat) : Q :=
  match slot i r with
  | Some (n, s) => if String.eqb n v then s else acc
  | None => acc
  end.

(* ================================================================== *)
(** ** Occurrence counts as the specification words them *)

(** Number of occupied slots (1..15), over all segments, that carry the
    name [s]; a name filling two slots of one segment counts twice. *)
Definition slot_occurrences (df : list Row) (s : string) : nat :=
  List.length
    (filter (String.eqb s)
       (flat_map (fun r => map fst (firstn 15 (sentiments (seg r)))) df)).

(** Matches of [s] in column [sentiment_i]. *)
Definition col_count (s : string) (df : list Row) (i : nat) : nat :=
  List.length (filter (String.eqb s) (column_names i df)).

(** Whether slot [i] of one row carries [s]. *)
Definition slot_match (s : string) (r : Row) (i : nat) : nat :=
  match slot i r with
  | Some (n, _) => if String.eqb s n then 1%nat else 0%nat
  | None => 0%nat
  end.

(* ================================================================== *)
(** ** The outputs of a run as functions of the payload *)

Section Outputs.
Variable set_iter : list string -> list string.

(** The table [_create_streamlined_data] builds during a run. *)
Definition flattened_table (p : Predictions) : list StreamRow :=
  create_streamlined_data (compute_top_sentiments set_iter (segment_table p))
                          (segment_table p).

(** The attributes of [self] after a run that found segments. *)
Definition processed_state (p : Predictions) : Processor :=
  {| predictions := p;
     processed_data := FrameData (segment_table p);
     top_sentiments := compute_top_sentiments set_iter (segment_table p);
     quintile_analysis := Some (quintile_report p);
     conversation_length := end_time_max (sort_values (extract_data p)) |}.
End Outputs.

(* ================================================================== *)
(** ** [_determine_quintile] in floating point

    Lines 290-294 perform four float operations, each rounding its exact
    result: the sum and the halving of the midpoint, the division of the
    conversation length by 5 and the division of the midpoint by the
    quintile size.  [fl] is the rounding; with the identity for [fl] this
    is [determine_quintile].  A quintile size of 0.0 (the length divided
    by 5 underflows) makes the last division raise: [None].  Overflow to
    infinity is outside this model. *)

Section FloatQuintile.
Variable fl : Q -> Q.

Definition float_determine_quintile (conversation_length start_t end_t : Q)
  : option Z :=
  if Qeq_bool conversation_length 0 then Some 0%Z
  else
    let midpoint := fl (fl (start_t + end_t) / 2) in
    let quintile_size := fl (conversation_length / 5) in
    if Qeq_bool quintile_size 0 then None
    else
      let quintile := py_int (fl (midpoint / quintile_size)) in
      Some (if (quintile =? 5)%Z then 4%Z else quintile).


End FloatQuintile.

(** Multiplication by a power of two. *)
Definition scale2 (x : Q) (k : Z) : Q :=
  if (0 <=? k)%Z then x * inject_Z (2 ^ k) else x / inject_Z (2 ^ (- k)).

(** Nearest integer, ties to even. *)
Definition round_half_even (y : Q) : Z :=
  let f := Qfloor y in
  match Qcompare (y - inject_Z f) (1 # 2) with
  | Lt => f
  | Gt => (f + 1)%Z
  | Eq => if Z.even f then f else (f + 1)%Z
  end.

(** Binade of a positive rational: the [E] with 2^E <= x < 2^(E+1). *)
Definition binade (x : Q) : Z :=
  let e0 := (Z.log2 (Qnum x) - Z.log2 (Zpos (Qden x)))%Z in
  if Qle_bool (scale2 1 e0) x then e0 else (e0 - 1)%Z.

(** Round to nearest binary64 (53-bit significand, ties to even, gradual
    underflow below 2^-1022). *)
Definition round_binary64 (x : Q) : Q :=
  if Qeq_bool x 0 then 0
  else
    let a := Qabs x in
    let k := Z.min (52 - binade a) 1074 in
    let m := scale2 (inject_Z (round_half_even (scale2 a k))) (- k) in
    if Qle_bool 0 x then m else - m.

(* ================================================================== *)
(** ** Two iteration orders for the set of names

    [unique] lists the inserted names in order of first insertion,
    [reversed_unique] in the opposite order; both list every inserted name
    once, which is all the language promises about a set. *)

Definition reversed_unique (l : list string) : list string := rev (unique l).

(* ================================================================== *)
(** ** Concrete payloads used by the examples below *)

Definition mk_emotion (n : string) (s : Q) : Emotion :=
  {| name := Some n; score := Some s |}.

Definition prosody_span (b e : Q) (es : list Emotion) : Span :=
  {| time := Some {| time_begin := Some b; time_end := Some e |};
     text := None; emotions := Some es; sentiment := None |}.

Definition language_span (b e : Q) (es : list Emotion) : Span :=
  {| time := Some {| time_begin := Some b; time_end := Some e |};
     text := None; emotions := None; sentiment := Some es |}.

Definition one_group (speaker : string) (spans : list Span) : ModelData :=
  {| grouped_predictions :=
       Some [ {| id := Some speaker; group_predictions := Some spans |} ] |}.

Definition wrap_results (ris : list ResultItem) : Predictions :=
  ListPredictions
    [ {| has_source := true;
         results := Some {| result_predictions := Some ris |} |} ].

(** A result item carrying both channels. *)
Definition both_channels (p l : ModelData) : ResultItem :=
  {| models := Some {| prosody := Some p; language := Some l |} |}.

(** Speaker A, [0s,10s] with Joy 0.8, Calm 0.2 and [10s,20s] with Joy 0.4,
    Anger 0.6, on the prosody channel. *)
Definition scenario_payload : Predictions :=
  wrap_results
    [ {| models := Some
           {| prosody := Some (one_group "A"
                [ prosody_span 0 10 [mk_emotion "Joy" (8#10); mk_emotion "Calm" (2#10)];
                  prosody_span 10 20 [mk_emotion "Joy" (4#10); mk_emotion "Anger" (6#10)] ]);
              language := None |} |} ].

(** One instantaneous span (start = end = 5s) for speaker A. *)
Definition instant_payload : Predictions :=
  wrap_results
    [ {| models := Some
           {| prosody := Some (one_group "A"
                [ prosody_span 5 5 [mk_emotion "Joy" (8#10)] ]);
              language := None |} |} ].

(** A span whose top emotion is named by digits only. *)
Definition numeric_payload : Predictions :=
  wrap_results
    [ {| models := Some
           {| prosody := Some (one_group "A"
                [ prosody_span 0 10 [mk_emotion "42" (9#10); mk_emotion "Joy" (1#10)] ]);
              language := None |} |} ].

(** The same key (A, 0s, 10s) on the language channel of a first result
    item and on the prosody channel of a second one. *)
Definition cross_item_payload : Predictions :=
  wrap_results
    [ {| models := Some
           {| prosody := None;
              language := Some (one_group "A"
                [ language_span 0 10 [mk_emotion "Positive" (7#10)] ]) |} |};
      {| models := Some
           {| prosody := Some (one_group "A"
                [ prosody_span 0 10 [mk_emotion "Joy" (8#10)] ]);
              language := None |} |} ].

(** Two prosody spans with the same key (A, 0s, 10s). *)
Definition twin_prosody_payload : Predictions :=
  wrap_results
    [ {| models := Some
           {| prosody := Some (one_group "A"
                [ prosody_span 0 10 [mk_emotion "Joy" (8#10)];
                  prosody_span 0 10 [mk_emotion "Calm" (5#10)] ]);
              language := None |} |} ].

(** A span listing the same emotion twice, with scores 0.9 and 0.1. *)
Definition repeated_name_payload : Predictions :=
  wrap_results
    [ {| models := Some
           {| prosody := Some (one_group "A"
                [ prosody_span 0 10 [mk_emotion "Joy" (9#10); mk_emotion "Joy" (1#10)] ]);
              language := None |} |} ].




(** A row of a second speaker B, in the bucket of A's first segment. *)
Definition speaker_b_row : Row :=
  {| seg := prosody_segment "B" (prosody_span 4 6 [mk_emotion "Anger" (9#10)]);
     quintile := 1 |}.
(* ================================================================== *)
(** * Properties *)

(** ** Facts about the Python built-ins *)

Lemma Qlt_bool_iff (a b : Q) : Qlt_bool a b = true <-> a < b.
Proof.
  unfold Qlt_bool. rewrite negb_true_iff.
  destruct (Qle_bool b a) eqn:E.
  - apply Qle_bool_iff in E. split; [discriminate | intro H; lra].
  - split; [intros _ | reflexivity].
    apply Qnot_le_lt. intro H. apply Qle_bool_iff in H. congruence.
Qed.

Lemma Qlt_bool_false (a b : Q) : Qlt_bool a b = false <-> b <= a.
Proof.
  unfold Qlt_bool. rewrite negb_false_iff. apply Qle_bool_iff.
Qed.

Lemma py_int_floor (x : Q) : 0 <= x -> py_int x = Qfloor x.
Proof.
  destruct x as [n d]. unfold py_int, Qfloor, Qle. simpl. intro H.
  apply Z.quot_div_nonneg; lia.
Qed.

Section StableSortFacts.
Context {A : Type}.
Variable precedes : A -> A -> bool.

Lemma insert_sorted_perm (x : A) (l : list A) :
  Permutation (x :: l) (insert_sorted precedes x l).
Proof.
  induction l as [|y t IH]; simpl.
  - apply Permutation_refl.
  - destruct (precedes y x).
    + eapply perm_trans; [apply perm_swap |]. now apply perm_skip.
    + apply Permutation_refl.
Qed.

Lemma stable_sort_perm (l : list A) : Permutation l (stable_sort precedes l).
Proof.
  induction l as [|x t IH]; simpl.
  - constructor.
  - eapply perm_trans; [apply perm_skip, IH | apply insert_sorted_perm].
Qed.

Lemma stable_sort_In (l : list A) (x : A) :
  In x (stable_sort precedes l) <-> In x l.
Proof.
  split; apply Permutation_in;
    [apply Permutation_sym |]; apply stable_sort_perm.
Qed.

(** Sortedness, for a [precedes] that is a strict weak order. *)
Hypothesis precedes_asym :
  forall a b, precedes a b = true -> precedes b a = false.
Hypothesis precedes_negtrans :
  forall a b c, precedes b a = false -> precedes c b = false ->
                precedes c a = false.

Let ordered (a b : A) : Prop := precedes b a = false.

Lemma insert_sorted_sorted (x : A) (l : list A) :
  StronglySorted ordered l ->
  StronglySorted ordered (insert_sorted precedes x l).
Proof.
  induction 1 as [|y t Ht IH Hy]; simpl.
  - repeat constructor.
  - destruct (precedes y x) eqn:E.
    + constructor; [exact IH |].
      rewrite Forall_forall in *. intros z Hz.
      apply (Permutation_in _ (Permutation_sym (insert_sorted_perm x t))) in Hz.
      destruct Hz as [<- | Hz]; [now apply precedes_asym | now apply Hy].
    + constructor; [now constructor |].
      constructor; [exact E |].
      rewrite Forall_forall in *. intros z Hz.
      unfold ordered. eapply precedes_negtrans; [exact E | now apply Hy].
Qed.

Lemma stable_sort_sorted (l : list A) :
  StronglySorted ordered (stable_sort precedes l).
Proof.
  induction l as [|x t IH]; simpl.
  - constructor.
  - now apply insert_sorted_sorted.
Qed.
End StableSortFacts.

Lemma sort_values_In (data : list SegmentData) (d : SegmentData) :
  In d (sort_values data) <-> In d data.
Proof. apply stable_sort_In. Qed.

Lemma fold_end_max_ge (t : list SegmentData) (m : Q) :
  m <= fold_left (fun m x => Qmax m (end_time x)) t m
  /\ forall d, In d t ->
       end_time d <= fold_left (fun m x => Qmax m (end_time x)) t m.
Proof.
  revert m. induction t as [|x t IH]; intro m; simpl.
  - split; [lra | tauto].
  - destruct (IH (Qmax m (end_time x))) as [H1 H2]. split.
    + eapply Qle_trans; [apply Q.le_max_l | exact H1].
    + intros d [<- | Hd]; [| now apply H2].
      eapply Qle_trans; [apply Q.le_max_r | exact H1].
Qed.

Lemma end_time_max_ge (data : list SegmentData) (d : SegmentData) :
  In d data -> end_time d <= end_time_max data.
Proof.
  destruct data as [|x t]; simpl; [tauto |].
  destruct (fold_end_max_ge t (end_time x)) as [H1 H2].
  intros [<- | Hd]; [exact H1 | now apply H2].
Qed.

(** ** Quintile assignment *)

Lemma determine_quintile_zero (L s e : Q) :
  L == 0 -> determine_quintile L s e = 0%Z.
Proof.
  intro H. unfold determine_quintile.
  apply Qeq_bool_iff in H. now rewrite H.
Qed.

Lemma determine_quintile_floor (L s e : Q) :
  0 < L -> 0 <= s -> 0 <= e ->
  determine_quintile L s e =
    let bucket := Qfloor (((s + e) / 2) / (L / 5)) in
    if (bucket =? 5)%Z then 4%Z else bucket.
Proof.
  intros HL Hs He. unfold determine_quintile.
  destruct (Qeq_bool L 0) eqn:E.
  - apply Qeq_bool_iff in E. lra.
  - cbv zeta. rewrite py_int_floor; [reflexivity |].
    apply Qle_shift_div_l; [| rewrite Qmult_0_l].
    + apply Qlt_shift_div_l; lra.
    + apply Qle_shift_div_l; lra.
Qed.

Lemma determine_quintile_range (L s e : Q) :
  0 <= s -> s <= e -> e <= L ->
  (0 <= determine_quintile L s e <= 4)%Z.
Proof.
  intros Hs Hse HeL.
  destruct (Qeq_dec L 0) as [HL | HL].
  - rewrite determine_quintile_zero by exact HL. lia.
  - assert (HL' : 0 < L) by (apply Qnot_le_lt; intro; apply HL; lra).
    rewrite determine_quintile_floor by lra. cbv zeta.
    set (x := ((s + e) / 2) / (L / 5)).
    assert (Hq : 0 < L / 5) by (apply Qlt_shift_div_l; lra).
    assert (H0 : 0 <= x).
    { unfold x. apply Qle_shift_div_l; [exact Hq | rewrite Qmult_0_l].
      apply Qle_shift_div_l; lra. }
    assert (H5 : x <= inject_Z 5).
    { unfold x. apply Qle_shift_div_r; [exact Hq |].
      apply Qle_shift_div_r; [lra |].
      assert (Hm : inject_Z 5 * (L / 5) == L) by (change (inject_Z 5) with 5; field).
      rewrite Hm. lra. }
    apply Qfloor_resp_le in H0. apply Qfloor_resp_le in H5.
    rewrite Qfloor_Z in H5. change (Qfloor 0) with 0%Z in H0.
    destruct (Qfloor x =? 5)%Z eqn:E; [lia |].
    apply Z.eqb_neq in E. lia.
Qed.

(** The quintile column in exact arithmetic: for a row with
    0 <= start_time <= end_time, bucket 0 when the conversation length is
    0; otherwise floor(midpoint / (length / 5)), with 5 replaced by 4; and
    in all cases an index among 0..4. *)
Theorem quintile_assignment (data : list SegmentData) (r : Row) :
  let sorted := sort_values data in
  let L := end_time_max sorted in
  In r (add_quintile L sorted) ->
  0 <= start_time (seg r) ->
  start_time (seg r) <= end_time (seg r) ->
  (L == 0 -> quintile r = 0%Z)
  /\ (0 < L ->
      quintile r =
        let midpoint := (start_time (seg r) + end_time (seg r)) / 2 in
        let bucket := Qfloor (midpoint / (L / 5)) in
        if (bucket =? 5)%Z then 4%Z else bucket)
  /\ (0 <= quintile r <= 4)%Z.
Proof.
  intros sorted L Hin Hs Hse.
  unfold add_quintile in Hin. apply in_map_iff in Hin.
  destruct Hin as [d [<- Hd]]. simpl in *.
  split; [| split].
  - apply determine_quintile_zero.
  - intro HL. apply determine_quintile_floor; lra.
  - apply determine_quintile_range; try assumption.
    now apply end_time_max_ge.
Qed.

Lemma quintile_assignment_witness :
  let r := {| seg := prosody_segment "A"
                       (prosody_span 0 10 [mk_emotion "Joy" (8#10);
                                           mk_emotion "Calm" (2#10)]);
              quintile := 1 |} in
  let L := end_time_max (sort_values (extract_data scenario_payload)) in
  (L == 0 -> quintile r = 0%Z)
  /\ (0 < L ->
      quintile r =
        let midpoint := (start_time (seg r) + end_time (seg r)) / 2 in
        let bucket := Qfloor (midpoint / (L / 5)) in
        if (bucket =? 5)%Z then 4%Z else bucket)
  /\ (0 <= quintile r <= 4)%Z.
Proof.
  apply (quintile_assignment (extract_data scenario_payload)).
  - vm_compute. left. reflexivity.
  - vm_compute. discriminate.
  - vm_compute. discriminate.
Defined.

(** ** Quintile assignment in floating point *)

Lemma float_determine_quintile_exact (L s e : Q) :
  float_determine_quintile (fun x => x) L s e = Some (determine_quintile L s e).
Proof.
  unfold float_determine_quintile, determine_quintile.
  destruct (Qeq_bool L 0) eqn:E; [reflexivity |].
  destruct (Qeq_bool (L / 5) 0) eqn:E5; [| reflexivity].
  apply Qeq_bool_iff in E5. apply Qeq_bool_neq in E.
  exfalso. apply E.
  assert (H : L == L / 5 * 5) by field. rewrite H, E5. ring.
Qed.

Section FloatQuintileFacts.
Variable fl : Q -> Q.


End FloatQuintileFacts.


(** On binary64 the span from 0.2s to 1.0s of a one-second conversation is
    in bucket 2: the computed quotient is just below 3, the exact one is 3. *)
Lemma fifth_second_bucket :
  float_determine_quintile round_binary64 1 (round_binary64 (2#10)) 1 = Some 2%Z
  /\ determine_quintile 1 (2#10) 1 = 3%Z.
Proof. split; vm_compute; reflexivity. Qed.


(** ** Folds *)

Lemma fold_left_preserves {A B : Type} (P : A -> Prop) (f : A -> B -> A)
  (l : list B) (a : A) :
  P a -> (forall a x, In x l -> P a -> P (f a x)) -> P (fold_left f l a).
Proof.
  revert a. induction l as [|x t IH]; intros a Ha Hf; simpl; [exact Ha |].
  apply IH.
  - apply Hf; [now left | exact Ha].
  - intros b y Hy. apply Hf. now right.
Qed.

Lemma fold_left_reaches {A B : Type} (P : A -> Prop) (f : A -> B -> A)
  (l : list B) (a : A) (x : B) :
  In x l -> (forall a, P (f a x)) -> (forall a y, P a -> P (f a y)) ->
  P (fold_left f l a).
Proof.
  revert a. induction l as [|y t IH]; intros a Hin Hx Hf; simpl; [easy |].
  destruct Hin as [-> | Hin].
  - apply fold_left_preserves; [apply Hx | intros; now apply Hf].
  - now apply IH.
Qed.

Lemma fold_left_id {A B : Type} (f : A -> B -> A) (l : list B) (a : A) :
  (forall b x, In x l -> f b x = b) -> fold_left f l a = a.
Proof.
  induction l as [|x t IH]; intro H; simpl; [reflexivity |].
  rewrite H by now left. apply IH. intros b y Hy. apply H. now right.
Qed.

(** ** Weights *)

Lemma fold_Qplus_acc (l : list Q) (a : Q) : fold_left Qplus l a == a + Qsum l.
Proof.
  unfold Qsum. revert a. induction l as [|x t IH]; intro a; simpl.
  - ring.
  - rewrite IH, (IH (0 + x)). ring.
Qed.

Lemma Qsum_cons (x : Q) (l : list Q) : Qsum (x :: l) == x + Qsum l.
Proof.
  unfold Qsum at 1. simpl. rewrite fold_Qplus_acc. ring.
Qed.

Lemma Qsum_map_div {A : Type} (f : A -> Q) (l : list A) (T : Q) :
  ~ T == 0 -> Qsum (map (fun r => f r / T) l) == Qsum (map f l) / T.
Proof.
  intro HT. induction l as [|x t IH]; simpl.
  - unfold Qsum. simpl. field. exact HT.
  - rewrite !Qsum_cons, IH. field. exact HT.
Qed.

Lemma weight_pos (total : Q) (r : Row) :
  0 < total -> weight total r = duration r / total.
Proof.
  intro H. unfold weight. apply Qlt_bool_iff in H. now rewrite H.
Qed.

Lemma weight_nonpos (total : Q) (r : Row) : total <= 0 -> weight total r = 0.
Proof.
  intro H. unfold weight. apply Qlt_bool_false in H. now rewrite H.
Qed.

(** C3. In a (speaker, bucket) group of positive total duration the
    weights duration / total_duration of the group's segments add up to 1. *)
Theorem weights_sum_to_one (df : list Row) (speaker : string) (q : nat) :
  let quintile_data := quintile_rows (speaker_rows df speaker) q in
  0 < total_duration quintile_data ->
  Qsum (map (weight (total_duration quintile_data)) quintile_data) == 1.
Proof.
  intros g HT.
  rewrite (map_ext _ (fun r => duration r / total_duration g))
    by (intro r; now apply weight_pos).
  rewrite Qsum_map_div by lra.
  fold (total_duration g). field. lra.
Qed.

Lemma weights_sum_to_one_witness :
  let quintile_data :=
    quintile_rows (speaker_rows (segment_table scenario_payload) "A") 1 in
  Qsum (map (weight (total_duration quintile_data)) quintile_data) == 1.
Proof.
  apply (weights_sum_to_one (segment_table scenario_payload) "A" 1).
  vm_compute. reflexivity.
Defined.

(** ** The weighted-emotion dict *)

Lemma add_weighted_not_nil (n : string) (v : Q) (w : list (string * Q)) :
  add_weighted n v w <> [].
Proof.
  destruct w as [|[m x] t]; simpl; [discriminate |].
  destruct (String.eqb m n); discriminate.
Qed.

(** Every entry after an update is an old entry, the updated entry or the
    new one. *)
Lemma add_weighted_In (n : string) (v : Q) (w : list (string * Q))
  (m : string) (x : Q) :
  In (m, x) (add_weighted n v w) ->
  In (m, x) w
  \/ (m = n /\ x = 0 + v)
  \/ (m = n /\ exists y, In (n, y) w /\ x = y + v).
Proof.
  induction w as [|[k y] t IH]; simpl.
  - intros [H | []]. inversion H. right. left. now split.
  - destruct (String.eqb k n) eqn:E.
    + apply String.eqb_eq in E. subst k. intros [H | H].
      * inversion H. subst. right. right. split; [reflexivity |].
        exists y. split; [now left | reflexivity].
      * left. now right.
    + intros [H | H]; [left; now left |].
      destruct (IH H) as [H1 | [H1 | [H1 [z [Hz1 Hz2]]]]].
      * left. now right.
      * right. now left.
      * right. right. split; [exact H1 |]. exists z. split; [now right | exact Hz2].
Qed.

Lemma accumulate_slot_zero (df : list Row) (wt : Q) (r : Row)
  (w : list (string * Q)) (i : nat) :
  wt == 0 ->
  (forall n v, In (n, v) w -> v == 0) ->
  forall n v, In (n, v) (accumulate_slot df wt r w i) -> v == 0.
Proof.
  intros Hwt Hw n v. unfold accumulate_slot.
  destruct (has_column i df); [| apply Hw].
  destruct (slot i r) as [[m s] |]; [| apply Hw].
  intro H. apply add_weighted_In in H.
  destruct H as [H | [[_ ->] | [_ [y [Hy ->]]]]].
  - now apply Hw in H.
  - rewrite Hwt. ring.
  - apply Hw in Hy. rewrite Hy, Hwt. ring.
Qed.

Lemma accumulate_slot_keeps (df : list Row) (wt : Q) (r : Row)
  (w : list (string * Q)) (i : nat) :
  w <> [] -> accumulate_slot df wt r w i <> [].
Proof.
  intro H. unfold accumulate_slot.
  destruct (has_column i df); [| exact H].
  destruct (slot i r) as [[m s] |]; [apply add_weighted_not_nil | exact H].
Qed.

Lemma accumulate_segment_keeps (df : list Row) (total : Q)
  (w : list (string * Q)) (r : Row) :
  w <> [] -> accumulate_segment df total w r <> [].
Proof.
  intro H. unfold accumulate_segment.
  apply fold_left_preserves; [exact H |].
  intros a i _. apply accumulate_slot_keeps.
Qed.

(** The dict is empty exactly when no segment of the group has a filled
    slot among the fifteen. *)
Lemma weighted_emotions_nil_iff (df quintile_data : list Row) :
  weighted_emotions df quintile_data = [] <->
  forall r i, In r quintile_data -> In i slot_indices ->
              has_column i df = true -> slot i r = None.
Proof.
  unfold weighted_emotions. split.
  - intros Hnil r i Hr Hi Hcol.
    destruct (slot i r) as [[n s] |] eqn:Hs; [exfalso | reflexivity].
    revert Hnil.
    apply (fold_left_reaches (fun w => w <> [])
             (accumulate_segment df (total_duration quintile_data))
             quintile_data [] r Hr).
    + intro a. unfold accumulate_segment.
      apply (fold_left_reaches (fun w => w <> []) _ slot_indices a i Hi).
      * intro b. unfold accumulate_slot. rewrite Hcol, Hs.
        apply add_weighted_not_nil.
      * intros b j. apply accumulate_slot_keeps.
    + intros a y. apply accumulate_segment_keeps.
  - intro H. apply fold_left_id. intros b r Hr.
    unfold accumulate_segment. apply fold_left_id. intros c i Hi.
    unfold accumulate_slot. destruct (has_column i df) eqn:Hcol; [| reflexivity].
    now rewrite (H r i Hr Hi Hcol).
Qed.

Lemma firstn_In {A : Type} (n : nat) (l : list A) (x : A) :
  In x (firstn n l) -> In x l.
Proof.
  intro H. rewrite <- (firstn_skipn n l). apply in_or_app. now left.
Qed.

Lemma max_by_In {A : Type} (key : A -> Q) (l : list A) (best : A) :
  In (max_by key best l) (best :: l).
Proof.
  revert best. induction l as [|x t IH]; intro best; simpl; [now left |].
  destruct (IH (if Qlt_bool (key best) (key x) then x else best)) as [H | H].
  - destruct (Qlt_bool (key best) (key x)); [right; now left | now left].
  - right. now right.
Qed.

Lemma analyze_quintile_some (L : Q) (df speaker_data : list Row) (q : nat)
  (lbl : string) (rec : QuintileRecord) :
  analyze_quintile L df speaker_data q = Some (lbl, rec) ->
  lbl = quintile_label q
  /\ In (dominant_emotion rec, emotion_score rec)
        (weighted_emotions df (quintile_rows speaker_data q))
  /\ forall n v, In (n, v) (top_emotions rec) ->
                 In (n, v) (weighted_emotions df (quintile_rows speaker_data q)).
Proof.
  unfold analyze_quintile.
  destruct (quintile_rows speaker_data q) as [|r0 g] eqn:Hg; [discriminate |].
  destruct (weighted_emotions df (r0 :: g)) as [|first rest] eqn:Hw; [discriminate |].
  intro H. injection H as <- <-.
  split; [reflexivity | split].
  - unfold dominant_emotion, emotion_score.
    rewrite <- surjective_pairing. apply max_by_In.
  - unfold top_emotions. intros n v Hin.
    apply (firstn_In 5) in Hin.
    now apply (stable_sort_In _ (first :: rest)) in Hin.
Qed.

Lemma analyze_quintile_none (L : Q) (df speaker_data : list Row) (q : nat) :
  analyze_quintile L df speaker_data q = None <->
  weighted_emotions df (quintile_rows speaker_data q) = [].
Proof.
  unfold analyze_quintile.
  destruct (quintile_rows speaker_data q) as [|r0 g] eqn:Hg.
  - split; reflexivity.
  - destruct (weighted_emotions df (r0 :: g)); split; (reflexivity || discriminate).
Qed.

Lemma weighted_emotions_zero (df quintile_data : list Row) :
  total_duration quintile_data == 0 ->
  forall n v, In (n, v) (weighted_emotions df quintile_data) -> v == 0.
Proof.
  intro HT. unfold weighted_emotions.
  apply (fold_left_preserves (fun w => forall n v, In (n, v) w -> v == 0)).
  - intros n v [].
  - intros a r _ Ha. unfold accumulate_segment.
    apply (fold_left_preserves (fun w => forall n v, In (n, v) w -> v == 0));
      [exact Ha |].
    intros b i _ Hb. apply accumulate_slot_zero; [| exact Hb].
    rewrite weight_nonpos by lra. reflexivity.
Qed.

(** C2, as the code has it.  In a group of total duration 0 every weight
    is 0 (no division takes place) and every value of the weighted-emotion
    dict is 0; the dict is empty only when no segment of the group has a
    filled emotion slot; the bucket is left out exactly when the dict is
    empty, and otherwise reported with an emotion score of 0. *)
Theorem zero_duration_bucket (L : Q) (df speaker_data : list Row) (q : nat) :
  let quintile_data := quintile_rows speaker_data q in
  total_duration quintile_data == 0 ->
  (forall r, weight (total_duration quintile_data) r = 0)
  /\ (forall n v, In (n, v) (weighted_emotions df quintile_data) -> v == 0)
  /\ (weighted_emotions df quintile_data = [] <->
      forall r i, In r quintile_data -> In i slot_indices ->
                  has_column i df = true -> slot i r = None)
  /\ (weighted_emotions df quintile_data = [] <->
      analyze_quintile L df speaker_data q = None)
  /\ (weighted_emotions df quintile_data <> [] ->
      exists rec,
        analyze_quintile L df speaker_data q = Some (quintile_label q, rec)
        /\ emotion_score rec == 0).
Proof.
  intros g HT. repeat split.
  - intro r. apply weight_nonpos. lra.
  - now apply weighted_emotions_zero.
  - apply weighted_emotions_nil_iff.
  - apply weighted_emotions_nil_iff.
  - apply analyze_quintile_none.
  - apply analyze_quintile_none.
  - intro Hne.
    destruct (analyze_quintile L df speaker_data q) as [[lbl rec] |] eqn:E.
    + destruct (analyze_quintile_some _ _ _ _ _ _ E) as [-> [Hdom _]].
      exists rec. split; [reflexivity |].
      eapply weighted_emotions_zero; [exact HT | exact Hdom].
    + apply analyze_quintile_none in E. contradiction.
Qed.

Lemma zero_duration_bucket_witness :
  let df := segment_table instant_payload in
  exists rec,
    analyze_quintile 5 df (speaker_rows df "A") 4 = Some (quintile_label 4, rec)
    /\ emotion_score rec == 0.
Proof.
  refine (proj2 (proj2 (proj2 (proj2
            (zero_duration_bucket 5 (segment_table instant_payload)
               (speaker_rows (segment_table instant_payload) "A") 4 _)))) _).
  - vm_compute. reflexivity.
  - vm_compute. discriminate.
Defined.

(** C2 as stated fails: a single instantaneous segment carrying an emotion
    has total duration 0, yet its dict is not empty and the report has a
    record for its bucket. *)
Lemma zero_duration_bucket_is_reported :
  let df := segment_table instant_payload in
  let quintile_data := quintile_rows (speaker_rows df "A") 4 in
  quintile_data <> []
  /\ total_duration quintile_data == 0
  /\ weighted_emotions df quintile_data <> []
  /\ exists rec,
       speakers (quintile_report instant_payload)
         = [("A"%string, [("quintile_5"%string, rec)])]
       /\ dominant_emotion rec = "Joy"%string
       /\ emotion_score rec == 0.
Proof.
  cbv zeta. split; [| split; [| split]].
  - vm_compute. discriminate.
  - vm_compute. reflexivity.
  - vm_compute. discriminate.
  - eexists. split; [vm_compute; reflexivity |].
    split; vm_compute; reflexivity.
Qed.

(** ** The two-segment scenario *)

(** C4. Speaker A with [0s,10s] (Joy 0.8, Calm 0.2) and [10s,20s]
    (Joy 0.4, Anger 0.6): the conversation length is 20, the segments fall
    in buckets 1 and 3, and the report has quintile_2 with Joy at 0.8 and
    quintile_4 with Anger at 0.6. *)
Theorem scenario_two_segments (set_iter : list string -> list string) :
  let out := process_sentiment_data set_iter (new_processor scenario_payload) in
  conversation_length (fst out) == 20
  /\ option_map (map (fun r => (start_time (seg r), end_time (seg r), quintile r)))
                (snd out)
     = Some [(0, 10, 1%Z); (10, 20, 3%Z)]
  /\ exists r2 r4,
       option_map speakers (quintile_analysis (fst out))
         = Some [("A"%string, [("quintile_2"%string, r2); ("quintile_4"%string, r4)])]
       /\ dominant_emotion r2 = "Joy"%string
       /\ emotion_score r2 == 8 # 10
       /\ dominant_emotion r4 = "Anger"%string
       /\ emotion_score r4 == 6 # 10.
Proof.
  cbv zeta. split; [| split].
  - vm_compute. reflexivity.
  - vm_compute. reflexivity.
  - eexists. eexists. split; [vm_compute; reflexivity |].
    repeat split; vm_compute; reflexivity.
Qed.

(** ** Numeric emotion names *)

Lemma relabel_digit (m : string) :
  isdigit m = true -> relabel m = ("Emotion_" ++ m)%string.
Proof. intro H. unfold relabel. now rewrite H. Qed.

Lemma relabel_other (m : string) : isdigit m = false -> relabel m = m.
Proof. intro H. unfold relabel. now rewrite H. Qed.

Lemma relabel_not_digit (m : string) : isdigit (relabel m) = false.
Proof.
  unfold relabel. destruct (isdigit m) eqn:E; [reflexivity | exact E].
Qed.

(** Where the keys of the dict come from. *)
Lemma weighted_emotions_key_origin
  (df quintile_data : list Row) (n : string) (v : Q) :
  In (n, v) (weighted_emotions df quintile_data) ->
  isdigit n = false
  /\ exists r i m s,
       In r quintile_data /\ In i slot_indices /\ slot i r = Some (m, s)
       /\ (isdigit m = true -> n = ("Emotion_" ++ m)%string)
       /\ (isdigit m = false -> n = m).
Proof.
  set (ok := fun k : string =>
         isdigit k = false
         /\ exists r i m s,
              In r quintile_data /\ In i slot_indices /\ slot i r = Some (m, s)
              /\ (isdigit m = true -> k = ("Emotion_" ++ m)%string)
              /\ (isdigit m = false -> k = m)).
  enough (H : forall k x, In (k, x) (weighted_emotions df quintile_data) -> ok k)
    by (intro Hin; exact (H n v Hin)).
  unfold weighted_emotions.
  apply (fold_left_preserves (fun w => forall k x, In (k, x) w -> ok k)).
  - intros k x [].
  - intros a r Hr Ha. unfold accumulate_segment.
    apply (fold_left_preserves (fun w => forall k x, In (k, x) w -> ok k));
      [exact Ha |].
    intros b i Hi Hb k x. unfold accumulate_slot.
    destruct (has_column i df); [| apply Hb].
    destruct (slot i r) as [[m s] |] eqn:Hs; [| apply Hb].
    intro Hin. apply add_weighted_In in Hin.
    destruct Hin as [Hin | [[-> _] | [-> _]]]; [now apply Hb in Hin | |];
      (split; [apply relabel_not_digit |];
       exists r, i, m, s; repeat split; try assumption;
       [apply relabel_digit | apply relabel_other]).
Qed.

(** C7, as the code has it.  The relabelling is done by the aggregator:
    every key of a group's weighted-emotion dict is the name of a filled
    slot of one of the group's segments, with a digits-only name [m]
    replaced by [Emotion_m]; so no key is digits-only. *)
Theorem numeric_names_relabelled_in_aggregation
  (df quintile_data : list Row) (n : string) (v : Q) :
  In (n, v) (weighted_emotions df quintile_data) ->
  isdigit n = false
  /\ exists r i m s,
       In r quintile_data /\ In i slot_indices /\ slot i r = Some (m, s)
       /\ (isdigit m = true -> n = ("Emotion_" ++ m)%string)
       /\ (isdigit m = false -> n = m).
Proof.
  intro Hin.
  destruct (weighted_emotions_key_origin df quintile_data n v Hin)
    as [Hdigit [r [i [m [s H]]]]].
  split; [exact Hdigit |]. now exists r, i, m, s.
Qed.

Lemma numeric_names_relabelled_in_aggregation_witness :
  let df := segment_table numeric_payload in
  isdigit "Emotion_42" = false
  /\ exists r i m s,
       In r df /\ In i slot_indices /\ slot i r = Some (m, s)
       /\ (isdigit m = true -> "Emotion_42"%string = ("Emotion_" ++ m)%string)
       /\ (isdigit m = false -> "Emotion_42"%string = m).
Proof.
  apply (numeric_names_relabelled_in_aggregation
           (segment_table numeric_payload) (segment_table numeric_payload)
           "Emotion_42" (90 # 100)).
  vm_compute. left. reflexivity.
Defined.

(** The names a report shows come from the dict, hence are not digits-only. *)
Lemma report_names_not_numeric (L : Q) (df speaker_data : list Row) (q : nat)
  (lbl : string) (rec : QuintileRecord) :
  analyze_quintile L df speaker_data q = Some (lbl, rec) ->
  isdigit (dominant_emotion rec) = false
  /\ forall n v, In (n, v) (top_emotions rec) -> isdigit n = false.
Proof.
  intro H. destruct (analyze_quintile_some _ _ _ _ _ _ H) as [_ [Hd Ht]]. split.
  - now apply weighted_emotions_key_origin in Hd.
  - intros n v Hin. apply Ht in Hin.
    now apply weighted_emotions_key_origin in Hin.
Qed.

(** C7 as stated fails: normalization keeps a digits-only name as it is;
    the frame row carries ["42"] in its first slot, and only the report
    shows [Emotion_42]. *)
Lemma numeric_name_kept_by_normalizer :
  (exists r s,
     In r (segment_table numeric_payload)
     /\ slot 1 r = Some ("42"%string, s)
     /\ isdigit "42" = true)
  /\ exists rec,
       speakers (quintile_report numeric_payload)
         = [("A"%string, [("quintile_3"%string, rec)])]
       /\ dominant_emotion rec = "Emotion_42"%string.
Proof.
  split.
  - eexists. eexists. split; [vm_compute; left; reflexivity |].
    split; vm_compute; reflexivity.
  - eexists. split; vm_compute; reflexivity.
Qed.

(** ** Collection of segments *)

Lemma fold_left_flat_map {A B C : Type} (f : A -> C -> A) (g : B -> list C)
  (l : list B) (a : A) :
  fold_left f (flat_map g l) a = fold_left (fun acc b => fold_left f (g b) acc) l a.
Proof.
  revert a. induction l as [|b t IH]; intro a; simpl; [reflexivity |].
  now rewrite fold_left_app, IH.
Qed.

Lemma collect_result_item_eq (data : list SegmentData) (ri : ResultItem) :
  collect_result_item data ri =
  fold_left append_language (item_language_rows ri) (data ++ item_prosody_rows ri).
Proof.
  unfold collect_result_item, item_language_rows, item_prosody_rows,
    collect_language, collect_prosody.
  destruct (models ri) as [m |]; simpl; [| now rewrite app_nil_r].
  destruct (prosody m), (language m); simpl; rewrite ?app_nil_r; reflexivity.
Qed.

Lemma collect_pred_item_eq (data : list SegmentData) (pi : PredItem) :
  collect_pred_item data pi =
  fold_left collect_result_item (pred_item_results pi) data.
Proof.
  unfold collect_pred_item, pred_item_results.
  destruct (has_source pi); [| reflexivity].
  destruct (results pi) as [r |]; [| reflexivity].
  destruct (result_predictions r); reflexivity.
Qed.

Lemma extract_data_eq (p : Predictions) :
  extract_data p = fold_left collect_result_item (payload_result_items p) [].
Proof.
  destruct p as [| | items]; try reflexivity.
  unfold extract_data, payload_result_items. rewrite fold_left_flat_map.
  generalize (@nil SegmentData). induction items as [|pi t IH]; intro a; simpl.
  - reflexivity.
  - now rewrite collect_pred_item_eq, IH.
Qed.

Lemma key_of_trans (a b c : SegmentData) :
  key_of a b = true -> key_of b c = true -> key_of a c = true.
Proof.
  unfold key_of, same_key. rewrite !andb_true_iff.
  intros [[H1 H2] H3] [[H4 H5] H6].
  apply String.eqb_eq in H1, H4.
  repeat split.
  - apply String.eqb_eq. congruence.
  - eapply Qeq_bool_trans; eassumption.
  - eapply Qeq_bool_trans; eassumption.
Qed.

Lemma key_of_refl (a : SegmentData) : key_of a a = true.
Proof.
  unfold key_of, same_key. now rewrite String.eqb_refl, !Qeq_bool_refl.
Qed.

Lemma append_language_key_of (data : list SegmentData) (sd : SegmentData) :
  append_language data sd =
  if existsb (key_of sd) data then data else data ++ [sd].
Proof. reflexivity. Qed.

Lemma append_language_found (data : list SegmentData) (sd : SegmentData) :
  existsb (key_of sd) data = true -> append_language data sd = data.
Proof. intro H. rewrite append_language_key_of. now rewrite H. Qed.

Lemma append_language_fresh (data : list SegmentData) (sd : SegmentData) :
  existsb (key_of sd) data = false -> append_language data sd = data ++ [sd].
Proof. intro H. rewrite append_language_key_of. now rewrite H. Qed.

(** What the language loop adds: rows of the channel whose key matches no
    entry collected before them. *)
Lemma collect_language_spec (rows data : list SegmentData) :
  exists kept,
    fold_left append_language rows data = data ++ kept
    /\ incl kept rows
    /\ forall x d, In x kept -> In d data -> key_of x d = false.
Proof.
  revert data. induction rows as [|x t IH]; intro data; simpl.
  - exists []. rewrite app_nil_r. repeat split; [apply incl_refl | easy].
  - destruct (existsb (key_of x) data) eqn:E.
    + rewrite append_language_found by exact E.
      destruct (IH data) as [kept [H1 [H2 H3]]].
      exists kept. repeat split; [exact H1 | now apply incl_tl | exact H3].
    + rewrite append_language_fresh by exact E.
      destruct (IH (data ++ [x])) as [kept [H1 [H2 H3]]].
      exists (x :: kept). repeat split.
      * now rewrite H1, <- app_assoc.
      * intros y [<- | Hy]; [now left | right; now apply H2].
      * intros y d [<- | Hy] Hd.
        -- destruct (key_of x d) eqn:K; [| reflexivity].
           assert (existsb (key_of x) data = true)
             by (apply existsb_exists; now exists d).
           congruence.
        -- apply H3; [exact Hy | apply in_or_app; now left].
Qed.

Lemma count_key_app (k : SegmentData) (l1 l2 : list SegmentData) :
  count_key k (l1 ++ l2) = (count_key k l1 + count_key k l2)%nat.
Proof. unfold count_key. now rewrite filter_app, length_app. Qed.

Lemma count_key_perm (k : SegmentData) (l1 l2 : list SegmentData) :
  Permutation l1 l2 -> count_key k l1 = count_key k l2.
Proof.
  unfold count_key. induction 1; simpl.
  - reflexivity.
  - destruct (key_of k x); simpl; congruence.
  - destruct (key_of k x), (key_of k y); reflexivity.
  - congruence.
Qed.

Lemma collect_result_item_count (k : SegmentData) (data : list SegmentData)
  (ri : ResultItem) :
  (count_key k data + count_key k (item_prosody_rows ri)
   <= count_key k (collect_result_item data ri))%nat.
Proof.
  rewrite collect_result_item_eq.
  destruct (collect_language_spec (item_language_rows ri)
              (data ++ item_prosody_rows ri)) as [kept [-> _]].
  rewrite !count_key_app. lia.
Qed.

Lemma collect_items_count (k : SegmentData) (ris : list ResultItem)
  (data : list SegmentData) :
  (count_key k data + count_key k (flat_map item_prosody_rows ris)
   <= count_key k (fold_left collect_result_item ris data))%nat.
Proof.
  revert data. induction ris as [|ri t IH]; intro data; simpl.
  - unfold count_key at 2. simpl. lia.
  - rewrite count_key_app.
    pose proof (collect_result_item_count k data ri).
    pose proof (IH (collect_result_item data ri)). lia.
Qed.

(** C10. Prosody rows are appended without any test; a language row is
    appended only if no entry collected so far (language rows included)
    has its key; so the final table holds every prosody span, two with the
    same key both. *)
Theorem dedup_only_for_language_rows :
  (forall data md, collect_prosody data md = data ++ prosody_rows md)
  /\ (forall data sd,
        existsb (key_of sd) data = true -> append_language data sd = data)
  /\ (forall data sd,
        existsb (key_of sd) data = false -> append_language data sd = data ++ [sd])
  /\ (forall data sd sd',
        key_of sd' sd = true ->
        append_language (append_language data sd) sd' = append_language data sd)
  /\ (forall p k,
        (count_key k (payload_prosody_rows p)
         <= count_key k (sort_values (extract_data p)))%nat)
  /\ count_key (prosody_segment "A" (prosody_span 0 10 []))
               (sort_values (extract_data twin_prosody_payload)) = 2%nat.
Proof.
  split; [reflexivity |].
  split; [exact append_language_found |].
  split; [exact append_language_fresh |].
  split; [| split].
  - intros data sd sd' K. apply append_language_found.
    apply existsb_exists.
    destruct (existsb (key_of sd) data) eqn:E.
    + rewrite append_language_found by exact E.
      apply existsb_exists in E. destruct E as [d [Hd Kd]].
      exists d. split; [exact Hd | eapply key_of_trans; eassumption].
    + rewrite append_language_fresh by exact E.
      exists sd. split; [apply in_or_app; right; now left | exact K].
  - intros p k.
    unfold sort_values.
    rewrite <- (count_key_perm k _ _ (stable_sort_perm _ (extract_data p))).
    rewrite extract_data_eq. unfold payload_prosody_rows.
    pose proof (collect_items_count k (payload_result_items p) []) as H.
    unfold count_key at 1 in H. simpl in H. exact H.
  - vm_compute. reflexivity.
Qed.

(** C6, as the code has it.  A language row is dropped when an entry
    collected before it (a prosody row of the same result item, or any row
    of an earlier item) has its key; the earlier entries stay as they are.
    So the table of a payload with a single result item keeps every
    prosody row and no language row sharing a key with one of them. *)
Theorem language_row_dropped_on_collected_key :
  (forall data ri,
     exists kept,
       collect_result_item data ri = (data ++ item_prosody_rows ri) ++ kept
       /\ incl kept (item_language_rows ri)
       /\ forall x d, In x kept -> In d (data ++ item_prosody_rows ri) ->
                      key_of x d = false)
  /\ (forall p l,
        let table := sort_values (extract_data (wrap_results [both_channels p l])) in
        exists kept,
          Permutation table (prosody_rows p ++ kept)
          /\ incl kept (language_rows l)
          /\ (forall x d, In x kept -> In d (prosody_rows p) -> key_of x d = false)
          /\ (forall x, In x (language_rows l) ->
                        existsb (key_of x) (prosody_rows p) = true ->
                        ~ In x kept)).
Proof.
  split.
  - intros data ri. rewrite collect_result_item_eq.
    apply collect_language_spec.
  - intros p l table.
    destruct (collect_language_spec (language_rows l) ([] ++ prosody_rows p))
      as [kept [H1 [H2 H3]]].
    exists kept. split; [| split; [exact H2 | split]].
    + unfold table, sort_values.
      eapply perm_trans; [apply Permutation_sym, stable_sort_perm |].
      change (extract_data (wrap_results [both_channels p l]))
        with (fold_left append_language (language_rows l) ([] ++ prosody_rows p)).
      rewrite H1. apply Permutation_refl.
    + exact H3.
    + intros x Hx E Hk. apply existsb_exists in E. destruct E as [d [Hd K]].
      rewrite (H3 x d Hk Hd) in K. discriminate.
Qed.

(** C6 as stated fails when the language span is met first: the table has
    the language segment and the prosody segment of the same key. *)
Lemma cross_channel_duplicate_survives :
  let table := sort_values (extract_data cross_item_payload) in
  exists x y,
    In x (payload_language_rows cross_item_payload)
    /\ In y (payload_prosody_rows cross_item_payload)
    /\ key_of x y = true
    /\ sentiments x <> sentiments y
    /\ In x table /\ In y table /\ List.length table = 2%nat.
Proof.
  exists (language_segment "A" (language_span 0 10 [mk_emotion "Positive" (7#10)])),
         (prosody_segment "A" (prosody_span 0 10 [mk_emotion "Joy" (8#10)])).
  repeat split.
  - vm_compute. now left.
  - vm_compute. now left.
  - vm_compute. discriminate.
  - vm_compute. now left.
  - vm_compute. right. now left.
Qed.

(** ** The flattened table *)

Lemma combine_map_self {A B C : Type} (F : A * B -> C) (g : A -> B) (l : list A) :
  map F (combine l (map g l)) = map (fun r => F (r, g r)) l.
Proof. induction l as [|x t IH]; simpl; [reflexivity | now rewrite IH]. Qed.

Lemma no_column_no_slot (df : list Row) (i : nat) (r : Row) :
  (1 <= i)%nat -> has_column i df = false -> In r df -> slot i r = None.
Proof.
  intros Hi Hcol Hr. unfold has_column in Hcol.
  assert (H : (i <=? List.length (sentiments (seg r)))%nat = false).
  { destruct (i <=? List.length (sentiments (seg r)))%nat eqn:E; [| reflexivity].
    assert (existsb (fun r => (i <=? List.length (sentiments (seg r)))%nat) df = true)
      by (apply existsb_exists; now exists r).
    congruence. }
  apply Nat.leb_gt in H. unfold slot. apply nth_error_None. lia.
Qed.

Lemma fill_slot_rows (sentiment : string) (df : list Row)
  (g : Row -> StreamRow) (i : nat) :
  (1 <= i)%nat ->
  fill_slot sentiment df (map g df) i
  = map (fun r => fill_cell sentiment r (g r) i) df.
Proof.
  intro Hi. unfold fill_slot. destruct (has_column i df) eqn:Hcol.
  - rewrite combine_map_self. reflexivity.
  - apply map_ext_in. intros r Hr. unfold fill_cell.
    now rewrite (no_column_no_slot df i r Hi Hcol Hr).
Qed.

Lemma fill_slots_rows (sentiment : string) (df : list Row) (l : list nat)
  (g : Row -> StreamRow) :
  (forall i, In i l -> (1 <= i)%nat) ->
  fold_left (fill_slot sentiment df) l (map g df)
  = map (fun r => fold_left (fill_cell sentiment r) l (g r)) df.
Proof.
  revert g. induction l as [|i t IH]; intros g Hl; simpl; [reflexivity |].
  rewrite fill_slot_rows by (apply Hl; now left).
  apply (IH (fun r => fill_cell sentiment r (g r) i)).
  intros j Hj. apply Hl. now right.
Qed.

Lemma slot_indices_pos (i : nat) : In i slot_indices -> (1 <= i)%nat.
Proof. unfold slot_indices. intro H. apply in_seq in H. lia. Qed.

Lemma add_sentiment_column_rows (df : list Row) (g : Row -> StreamRow)
  (sentiment : string) :
  add_sentiment_column df (map g df) sentiment
  = map (fun r => row_add r (g r) sentiment) df.
Proof.
  unfold add_sentiment_column, row_add. rewrite map_map.
  apply (fill_slots_rows sentiment df slot_indices
           (fun r => set_cell sentiment (CNum 0) (g r))).
  exact slot_indices_pos.
Qed.

(** The table is built row by row. *)
Lemma create_streamlined_data_rows (top : list string) (df : list Row) :
  create_streamlined_data top df
  = map (fun r => fold_left (row_add r) top (base_row r)) df.
Proof.
  unfold create_streamlined_data. generalize base_row as g.
  induction top as [|s t IH]; intro g; simpl; [reflexivity |].
  rewrite add_sentiment_column_rows. apply (IH (fun r => row_add r (g r) s)).
Qed.

Lemma get_set_cell_same (col : string) (v : Cell) (sr : StreamRow) :
  get_cell col (set_cell col v sr) = Some v.
Proof.
  induction sr as [|[c w] t IH]; simpl.
  - now rewrite String.eqb_refl.
  - destruct (String.eqb c col) eqn:E; simpl; now rewrite E.
Qed.

Lemma get_set_cell_other (col col' : string) (v : Cell) (sr : StreamRow) :
  col <> col' -> get_cell col' (set_cell col v sr) = get_cell col' sr.
Proof.
  intro Hne. induction sr as [|[c w] t IH]; simpl.
  - apply String.eqb_neq in Hne. now rewrite Hne.
  - destruct (String.eqb c col) eqn:E; simpl.
    + apply String.eqb_eq in E. subst c.
      apply String.eqb_neq in Hne. now rewrite Hne.
    + destruct (String.eqb c col'); [reflexivity | exact IH].
Qed.

Lemma row_add_other (r : Row) (sr : StreamRow) (s v : string) :
  s <> v -> get_cell v (row_add r sr s) = get_cell v sr.
Proof.
  intro Hne. unfold row_add.
  apply (fold_left_preserves
           (fun x => get_cell v x = get_cell v sr) (fill_cell s r)).
  - now apply get_set_cell_other.
  - intros a i _ Ha. unfold fill_cell.
    destruct (slot i r) as [[n x] |]; [| exact Ha].
    destruct (String.eqb n s); [| exact Ha].
    now rewrite get_set_cell_other.
Qed.

Lemma fill_cells_value (v : string) (r : Row) (l : list nat)
  (sr : StreamRow) (x : Q) :
  get_cell v sr = Some (CNum x) ->
  get_cell v (fold_left (fill_cell v r) l sr)
  = Some (CNum (fold_left (scan_value v r) l x)).
Proof.
  revert sr x. induction l as [|i t IH]; intros sr x H; simpl; [exact H |].
  apply IH. unfold fill_cell, scan_value.
  destruct (slot i r) as [[n s] |]; [| exact H].
  destruct (String.eqb n v); [apply get_set_cell_same | exact H].
Qed.

Lemma firstn_S_nth_error {A : Type} (l : list A) (n : nat) :
  firstn (S n) l
  = firstn n l ++ match nth_error l n with Some x => [x] | None => [] end.
Proof.
  revert n. induction l as [|a t IH]; intro n.
  - destruct n; reflexivity.
  - destruct n as [|n].
    + reflexivity.
    + change (firstn (S (S n)) (a :: t)) with (a :: firstn (S n) t).
      rewrite IH. reflexivity.
Qed.

Lemma scan_value_last (v : string) (r : Row) (n : nat) (acc : Q) :
  fold_left (scan_value v r) (seq 1 n) acc
  = match find (fun p => String.eqb (fst p) v)
               (rev (firstn n (sentiments (seg r)))) with
    | Some p => snd p
    | None => acc
    end.
Proof.
  induction n as [|n IH].
  - reflexivity.
  - rewrite seq_S, fold_left_app, IH. cbn [fold_left].
    rewrite firstn_S_nth_error, rev_app_distr.
    unfold scan_value, slot. replace (1 + n - 1)%nat with n by lia.
    destruct (nth_error (sentiments (seg r)) n) as [[m s] |]; simpl.
    + destruct (String.eqb m v); reflexivity.
    + reflexivity.
Qed.

Lemma row_add_same (r : Row) (sr : StreamRow) (v : string) :
  get_cell v (row_add r sr v)
  = Some (CNum (last_matching_score v (sentiments (seg r)))).
Proof.
  unfold row_add.
  rewrite (fill_cells_value v r slot_indices _ 0) by apply get_set_cell_same.
  unfold slot_indices. now rewrite scan_value_last.
Qed.

Lemma row_adds_absent (r : Row) (top : list string) (sr : StreamRow) (v : string) :
  ~ In v top -> get_cell v (fold_left (row_add r) top sr) = get_cell v sr.
Proof.
  revert sr. induction top as [|s t IH]; intros sr Hv; simpl; [reflexivity |].
  rewrite IH by (intro; apply Hv; now right).
  apply row_add_other. intro; apply Hv; now left.
Qed.

Lemma row_adds_present (r : Row) (top : list string) (sr : StreamRow) (v : string) :
  In v top ->
  get_cell v (fold_left (row_add r) top sr)
  = Some (CNum (last_matching_score v (sentiments (seg r)))).
Proof.
  revert sr. induction top as [|s t IH]; intros sr Hv; simpl; [easy |].
  destruct (in_dec string_dec v t) as [Ht | Ht]; [now apply IH |].
  rewrite row_adds_absent by exact Ht.
  destruct Hv as [-> | Hv]; [apply row_add_same | contradiction].
Qed.

(** C8. In the flattened table the cell of a row in a vocabulary column is
    the score of the last slot (scanning slots 1 to 15) that carries the
    column's name, and 0.0 when no slot does. *)
Theorem streamlined_cell_last_match (top : list string) (df : list Row)
  (k : nat) (r : Row) (v : string) :
  nth_error df k = Some r ->
  In v top ->
  exists sr,
    nth_error (create_streamlined_data top df) k = Some sr
    /\ get_cell v sr = Some (CNum (last_matching_score v (sentiments (seg r)))).
Proof.
  intros Hk Hv. rewrite create_streamlined_data_rows.
  exists (fold_left (row_add r) top (base_row r)). split.
  - rewrite nth_error_map, Hk. reflexivity.
  - now apply row_adds_present.
Qed.

Lemma streamlined_cell_last_match_witness :
  let df := segment_table repeated_name_payload in
  let r := {| seg := prosody_segment "A"
                       (prosody_span 0 10 [mk_emotion "Joy" (9#10);
                                           mk_emotion "Joy" (1#10)]);
              quintile := 2 |} in
  exists sr,
    nth_error (create_streamlined_data ["Joy"%string] df) 0 = Some sr
    /\ get_cell "Joy" sr
       = Some (CNum (last_matching_score "Joy" (sentiments (seg r)))).
Proof.
  apply (streamlined_cell_last_match ["Joy"%string]
           (segment_table repeated_name_payload) 0).
  - vm_compute. reflexivity.
  - now left.
Defined.

(** Last match, not maximum: with Joy in slots 1 (0.9) and 2 (0.1) the
    cell holds 0.1. *)
Lemma repeated_name_cell_is_last :
  exists sr,
    nth_error (create_streamlined_data ["Joy"%string]
                 (segment_table repeated_name_payload)) 0 = Some sr
    /\ get_cell "Joy" sr = Some (CNum (1 # 10)).
Proof.
  eexists. split; vm_compute; reflexivity.
Qed.

(** ** The vocabulary *)

Lemma unique_In (l : list string) (x : string) : In x (unique l) <-> In x l.
Proof.
  induction l as [|y t IH]; simpl; [tauto |].
  rewrite filter_In, IH. split.
  - intros [H | [H _]]; tauto.
  - intros [H | H]; [now left |].
    destruct (String.eqb y x) eqn:E.
    + apply String.eqb_eq in E. now left.
    + right. split; [exact H | reflexivity].
Qed.

Lemma unique_NoDup (l : list string) : NoDup (unique l).
Proof.
  induction l as [|y t IH]; simpl; constructor.
  - rewrite filter_In. intros [_ H]. now rewrite String.eqb_refl in H.
  - now apply NoDup_filter.
Qed.

Lemma flat_map_nil {A B : Type} (f : A -> list B) (l : list A) :
  (forall x, In x l -> f x = []) -> flat_map f l = [].
Proof.
  induction l as [|x t IH]; intro H; simpl; [reflexivity |].
  rewrite H by now left. apply IH. intros y Hy. apply H. now right.
Qed.

Lemma column_names_nil (df : list Row) (i : nat) :
  (1 <= i)%nat -> has_column i df = false -> column_names i df = [].
Proof.
  intros Hi Hcol. apply flat_map_nil. intros r Hr.
  now rewrite (no_column_no_slot df i r Hi Hcol Hr).
Qed.

Lemma fold_left_ext_in {A B : Type} (f g : A -> B -> A) (l : list B) (a : A) :
  (forall b x, In x l -> f b x = g b x) -> fold_left f l a = fold_left g l a.
Proof.
  revert a. induction l as [|x t IH]; intros a H; simpl; [reflexivity |].
  rewrite H by now left. apply IH. intros b y Hy. apply H. now right.
Qed.

Lemma fold_count_sum (f : nat -> nat) (l : list nat) (a : nat) :
  fold_left (fun count i => (count + f i)%nat) l a = (a + list_sum (map f l))%nat.
Proof.
  revert a. induction l as [|i t IH]; intro a; simpl; [lia |].
  rewrite IH. lia.
Qed.

Lemma sentiment_count_sum (df : list Row) (s : string) :
  sentiment_count df s = list_sum (map (col_count s df) slot_indices).
Proof.
  unfold sentiment_count.
  rewrite (fold_left_ext_in _ (fun count i => (count + col_count s df i)%nat)).
  - now rewrite fold_count_sum.
  - intros b i Hi. unfold col_count.
    destruct (has_column i df) eqn:Hcol; [reflexivity |].
    rewrite column_names_nil by (auto using slot_indices_pos). simpl. lia.
Qed.

Lemma col_count_cons (s : string) (r : Row) (df : list Row) (i : nat) :
  col_count s (r :: df) i = (slot_match s r i + col_count s df i)%nat.
Proof.
  unfold col_count, slot_match, column_names. simpl.
  rewrite filter_app, length_app. f_equal.
  destruct (slot i r) as [[n x] |]; simpl; [| reflexivity].
  destruct (String.eqb s n); reflexivity.
Qed.

Lemma list_sum_map_add (f g : nat -> nat) (l : list nat) :
  list_sum (map (fun i => (f i + g i)%nat) l)
  = (list_sum (map f l) + list_sum (map g l))%nat.
Proof. induction l as [|i t IH]; simpl; [reflexivity | rewrite IH; lia]. Qed.

Lemma slot_match_sum (s : string) (r : Row) (n : nat) :
  list_sum (map (slot_match s r) (seq 1 n))
  = List.length (filter (String.eqb s) (map fst (firstn n (sentiments (seg r))))).
Proof.
  induction n as [|n IH]; [reflexivity |].
  rewrite seq_S, map_app, list_sum_app, IH.
  rewrite firstn_S_nth_error, map_app, filter_app, length_app. f_equal.
  cbn [map list_sum]. unfold slot_match, slot.
  replace (1 + n - 1)%nat with n by lia.
  destruct (nth_error (sentiments (seg r)) n) as [[m x] |]; simpl; [| reflexivity].
  destruct (String.eqb s m); reflexivity.
Qed.

(** The column-wise count of the code is the slot-wise count of the
    specification. *)
Lemma sentiment_count_occurrences (df : list Row) (s : string) :
  sentiment_count df s = slot_occurrences df s.
Proof.
  rewrite sentiment_count_sum. induction df as [|r t IH].
  - reflexivity.
  - rewrite (map_ext _ (fun i => (slot_match s r i + col_count s t i)%nat))
      by (intro i; apply col_count_cons).
    rewrite list_sum_map_add, IH. unfold slot_indices.
    rewrite slot_match_sum. unfold slot_occurrences. simpl flat_map.
    now rewrite filter_app, length_app.
Qed.

Lemma list_sum_pos (f : nat -> nat) (l : list nat) :
  (0 < list_sum (map f l))%nat -> exists i, In i l /\ (0 < f i)%nat.
Proof.
  induction l as [|i t IH]; simpl; [lia |]. intro H.
  destruct (f i) eqn:E.
  - destruct (IH H) as [j [Hj Hf]]. exists j. split; [now right | exact Hf].
  - exists i. split; [now left | lia].
Qed.

Lemma occurring_name_inserted (df : list Row) (s : string) :
  (0 < slot_occurrences df s)%nat -> In s (inserted_sentiments df).
Proof.
  rewrite <- sentiment_count_occurrences, sentiment_count_sum. intro H.
  apply list_sum_pos in H. destruct H as [i [Hi Hc]].
  unfold inserted_sentiments. apply in_flat_map. exists i. split; [exact Hi |].
  assert (Hin : In s (column_names i df)).
  { unfold col_count in Hc.
    destruct (filter (String.eqb s) (column_names i df)) as [|y t] eqn:E;
      [simpl in Hc; lia |].
    assert (Hy : In y (filter (String.eqb s) (column_names i df)))
      by (rewrite E; now left).
    apply filter_In in Hy. destruct Hy as [Hy Heq].
    apply String.eqb_eq in Heq. now subst y. }
  destruct (has_column i df) eqn:Hcol.
  - now apply unique_In.
  - rewrite column_names_nil in Hin by (auto using slot_indices_pos). easy.
Qed.

Lemma inserted_name_occurs (df : list Row) (s : string) :
  In s (inserted_sentiments df) -> (0 < slot_occurrences df s)%nat.
Proof.
  unfold inserted_sentiments. rewrite in_flat_map. intros [i [Hi Hin]].
  destruct (has_column i df); [| easy].
  apply (proj1 (unique_In _ _)) in Hin.
  rewrite <- sentiment_count_occurrences, sentiment_count_sum.
  assert (Hc : (0 < col_count s df i)%nat).
  { unfold col_count.
    assert (Hf : In s (filter (String.eqb s) (column_names i df)))
      by (apply filter_In; split; [exact Hin | apply String.eqb_refl]).
    destruct (filter (String.eqb s) (column_names i df)); [easy | simpl; lia]. }
  clear Hin. revert Hi. generalize slot_indices as l.
  induction l as [|j t IH]; simpl; [easy |].
  intros [-> | Hj]; [lia |]. specialize (IH Hj). lia.
Qed.

Lemma StronglySorted_app_order {A : Type} (R : A -> A -> Prop) (l1 l2 : list A) :
  StronglySorted R (l1 ++ l2) ->
  forall a b, In a l1 -> In b l2 -> R a b.
Proof.
  induction l1 as [|x t IH]; simpl; intros H a b Ha Hb; [easy |].
  inversion H as [|? ? Ht Hx]; subst.
  destruct Ha as [<- | Ha].
  - rewrite Forall_forall in Hx. apply Hx. apply in_or_app. now right.
  - now apply (IH Ht).
Qed.

Lemma StronglySorted_app_l {A : Type} (R : A -> A -> Prop) (l1 l2 : list A) :
  StronglySorted R (l1 ++ l2) -> StronglySorted R l1.
Proof.
  induction l1 as [|x t IH]; simpl; intro H; [constructor |].
  inversion H as [|? ? Ht Hx]; subst. constructor; [now apply IH |].
  rewrite Forall_forall in *. intros y Hy. apply Hx. apply in_or_app. now left.
Qed.

Lemma StronglySorted_map_in {A B : Type} (R : A -> A -> Prop)
  (R' : B -> B -> Prop) (f : A -> B) (l : list A) :
  (forall a b, In a l -> In b l -> R a b -> R' (f a) (f b)) ->
  StronglySorted R l -> StronglySorted R' (map f l).
Proof.
  intros H HS. induction HS as [|x t Ht IH Hx]; simpl; constructor.
  - apply IH. intros a b Ha Hb. apply H; now right.
  - rewrite Forall_forall in *. intros y Hy. apply in_map_iff in Hy.
    destruct Hy as [z [<- Hz]]. apply H; [now left | now right | now apply Hx].
Qed.

Section VocabularyFacts.
Variable set_iter : list string -> list string.
(** A set holds each inserted value once, and nothing else. *)
Hypothesis set_iter_NoDup : forall l, NoDup (set_iter l).
Hypothesis set_iter_In : forall l x, In x (set_iter l) <-> In x l.

Let by_count (y x : string * nat) : bool := (snd x <? snd y)%nat.

Lemma by_count_asym (a b : string * nat) :
  by_count a b = true -> by_count b a = false.
Proof.
  unfold by_count. rewrite Nat.ltb_lt, Nat.ltb_ge. lia.
Qed.

Lemma by_count_negtrans (a b c : string * nat) :
  by_count b a = false -> by_count c b = false -> by_count c a = false.
Proof.
  unfold by_count. rewrite !Nat.ltb_ge. lia.
Qed.

Lemma sorted_counts_entry (df : list Row) (e : string * nat) :
  In e (stable_sort by_count (sentiment_counts set_iter df)) ->
  snd e = slot_occurrences df (fst e) /\ (0 < slot_occurrences df (fst e))%nat.
Proof.
  intro H. apply stable_sort_In in H. unfold sentiment_counts in H.
  apply in_map_iff in H. destruct H as [s [<- Hs]]. simpl.
  split; [apply sentiment_count_occurrences |].
  apply inserted_name_occurs. unfold all_sentiments in Hs.
  exact (proj1 (set_iter_In _ _) Hs).
Qed.

Lemma sorted_counts_names (df : list Row) :
  Permutation (all_sentiments set_iter df)
    (map fst (stable_sort by_count (sentiment_counts set_iter df))).
Proof.
  eapply perm_trans; [| apply Permutation_map, stable_sort_perm].
  unfold sentiment_counts. rewrite map_map. simpl. rewrite map_id.
  apply Permutation_refl.
Qed.

(** C5. The count of a name is the number of occupied slots carrying it
    (two slots of one segment count twice); the vocabulary has at most
    15 names, all different, each occurring in the table, in order of
    descending count; a name of the table left out has a count no larger
    than any name kept, and then exactly 15 names are kept. *)
Theorem vocabulary_top_fifteen (df : list Row) :
  let V := compute_top_sentiments set_iter df in
  (forall s, sentiment_count df s = slot_occurrences df s)
  /\ (List.length V <= 15)%nat
  /\ StronglySorted
       (fun a b => (slot_occurrences df b <= slot_occurrences df a)%nat) V
  /\ NoDup V
  /\ (forall v, In v V -> (0 < slot_occurrences df v)%nat)
  /\ (forall s, (0 < slot_occurrences df s)%nat -> ~ In s V ->
        List.length V = 15%nat
        /\ forall v, In v V ->
             (slot_occurrences df s <= slot_occurrences df v)%nat).
Proof.
  intro V. unfold compute_top_sentiments in V. fold by_count in V.
  set (sorted := stable_sort by_count (sentiment_counts set_iter df)) in *.
  assert (Hsorted : StronglySorted (fun a b => by_count b a = false) sorted)
    by (apply stable_sort_sorted;
        [exact by_count_asym | exact by_count_negtrans]).
  assert (Hsplit : firstn 15 sorted ++ skipn 15 sorted = sorted)
    by apply firstn_skipn.
  assert (Hentry : forall e, In e (firstn 15 sorted) ->
            snd e = slot_occurrences df (fst e)
            /\ (0 < slot_occurrences df (fst e))%nat).
  { intros e He. apply sorted_counts_entry. fold sorted.
    now apply firstn_In in He. }
  split; [exact (sentiment_count_occurrences df) |].
  split; [unfold V; rewrite length_map; apply firstn_le_length |].
  split; [| split; [| split]].
  - unfold V.
    apply (StronglySorted_map_in (fun a b => by_count b a = false)).
    + intros a b Ha Hb Hab. unfold by_count in Hab. apply Nat.ltb_ge in Hab.
      destruct (Hentry a Ha) as [<- _]. destruct (Hentry b Hb) as [<- _].
      exact Hab.
    + rewrite <- Hsplit in Hsorted. now apply StronglySorted_app_l in Hsorted.
  - unfold V. rewrite <- firstn_map.
    assert (Hnd : NoDup (map fst sorted)).
    { eapply Permutation_NoDup; [apply sorted_counts_names |].
      apply set_iter_NoDup. }
    rewrite <- (firstn_skipn 15 (map fst sorted)) in Hnd.
    now apply NoDup_app_remove_r in Hnd.
  - intros v Hv. unfold V in Hv. apply in_map_iff in Hv.
    destruct Hv as [e [<- He]]. now apply Hentry.
  - intros s Hs HnotV.
    assert (Hin : In (s, sentiment_count df s) sorted).
    { apply stable_sort_In. unfold sentiment_counts.
      apply (in_map (fun x => (x, sentiment_count df x))).
      unfold all_sentiments. apply set_iter_In.
      now apply occurring_name_inserted. }
    rewrite <- Hsplit in Hin. apply in_app_or in Hin.
    destruct Hin as [Hin | Hin];
      [exfalso; apply HnotV; unfold V;
       change s with (fst (s, sentiment_count df s)); now apply in_map |].
    split.
    + unfold V. rewrite length_map, length_firstn.
      destruct (Nat.le_gt_cases (List.length sorted) 15) as [Hle | Hgt]; [| lia].
      rewrite skipn_all2 in Hin by exact Hle. easy.
    + intros v Hv. unfold V in Hv. apply in_map_iff in Hv.
      destruct Hv as [e [<- He]].
      rewrite <- Hsplit in Hsorted.
      pose proof (StronglySorted_app_order _ _ _ Hsorted e _ He Hin) as Hord.
      unfold by_count in Hord. apply Nat.ltb_ge in Hord. simpl in Hord.
      destruct (Hentry e He) as [<- _].
      now rewrite <- sentiment_count_occurrences.
Qed.
End VocabularyFacts.

Lemma vocabulary_top_fifteen_witness :
  let df := segment_table scenario_payload in
  let V := compute_top_sentiments unique df in
  (forall s, sentiment_count df s = slot_occurrences df s)
  /\ (List.length V <= 15)%nat
  /\ StronglySorted
       (fun a b => (slot_occurrences df b <= slot_occurrences df a)%nat) V
  /\ NoDup V
  /\ (forall v, In v V -> (0 < slot_occurrences df v)%nat)
  /\ (forall s, (0 < slot_occurrences df s)%nat -> ~ In s V ->
        List.length V = 15%nat
        /\ forall v, In v V ->
             (slot_occurrences df s <= slot_occurrences df v)%nat).
Proof.
  exact (vocabulary_top_fifteen unique unique_NoDup unique_In
           (segment_table scenario_payload)).
Defined.

(** With first-insertion order for the set, the scenario's vocabulary is
    Joy (2 slots), then Anger and Calm (1 slot each). *)
Lemma scenario_vocabulary :
  compute_top_sentiments unique (segment_table scenario_payload)
  = ["Joy"; "Anger"; "Calm"]%string.
Proof. vm_compute. reflexivity. Qed.

(** ** Runs of the engine *)

Section EngineFacts.
Variable set_iter : list string -> list string.

Lemma process_sentiment_data_none (self : Processor) :
  extract_data (predictions self) = [] ->
  process_sentiment_data set_iter self = (self, None).
Proof.
  intro H. unfold process_sentiment_data.
  destruct (predictions self); [reflexivity | reflexivity |].
  now rewrite H.
Qed.

Lemma process_sentiment_data_some (self : Processor) :
  extract_data (predictions self) <> [] ->
  process_sentiment_data set_iter self
  = (processed_state set_iter (predictions self),
     Some (segment_table (predictions self))).
Proof.
  intro H. unfold process_sentiment_data.
  destruct (predictions self) as [| | items] eqn:P;
    [now contradiction H | now contradiction H |].
  destruct (extract_data (ListPredictions items)) as [|d t] eqn:E;
    [now contradiction H |].
  unfold processed_state, quintile_report, segment_table.
  rewrite E.
  unfold set_processed_data, _analyze_quintiles, _create_streamlined_data,
    set_quintile_analysis, set_processed_data, set_top_sentiments,
    set_conversation_length, _determine_quintile.
  cbn [predictions processed_data top_sentiments quintile_analysis
       conversation_length].
  rewrite P. reflexivity.
Qed.

End EngineFacts.

Lemma reversed_unique_NoDup (l : list string) : NoDup (reversed_unique l).
Proof.
  unfold reversed_unique.
  eapply Permutation_NoDup; [apply Permutation_rev | apply unique_NoDup].
Qed.

Lemma reversed_unique_In (l : list string) (x : string) :
  In x (reversed_unique l) <-> In x l.
Proof.
  unfold reversed_unique. rewrite <- in_rev. apply unique_In.
Qed.

Lemma flattened_table_row (set_iter : list string -> list string)
  (p : Predictions) (k : nat) (sr : StreamRow) :
  nth_error (flattened_table set_iter p) k = Some sr ->
  exists r,
    nth_error (segment_table p) k = Some r
    /\ sr = fold_left (row_add r)
              (compute_top_sentiments set_iter (segment_table p)) (base_row r).
Proof.
  unfold flattened_table. rewrite create_streamlined_data_rows, nth_error_map.
  destruct (nth_error (segment_table p) k) as [r |]; [| discriminate].
  intro H. injection H as <-. now exists r.
Qed.

Section SmallVocabulary.
Variable set_iter : list string -> list string.
Hypothesis set_iter_NoDup : forall l, NoDup (set_iter l).
Hypothesis set_iter_In : forall l x, In x (set_iter l) <-> In x l.

(** With at most 15 distinct names the vocabulary holds all of them. *)
Lemma small_vocabulary_names (df : list Row) (v : string) :
  (List.length (unique (inserted_sentiments df)) <= 15)%nat ->
  In v (compute_top_sentiments set_iter df) <-> In v (inserted_sentiments df).
Proof.
  intro Hlen.
  assert (Hperm : Permutation (set_iter (inserted_sentiments df))
                              (unique (inserted_sentiments df))).
  { apply NoDup_Permutation;
      [apply set_iter_NoDup | apply unique_NoDup |].
    intro x. rewrite set_iter_In, unique_In. reflexivity. }
  unfold compute_top_sentiments.
  rewrite firstn_all2.
  - rewrite <- (set_iter_In (inserted_sentiments df) v).
    split; apply Permutation_in;
      [apply Permutation_sym |]; apply (sorted_counts_names set_iter df).
  - rewrite <- (Permutation_length (stable_sort_perm _ _)).
    unfold sentiment_counts, all_sentiments. rewrite length_map.
    now rewrite (Permutation_length Hperm).
Qed.
End SmallVocabulary.

(** C9, as the code has it.  For two runs on the same payload, whatever
    the iteration orders of the set of names: the returned frames, the
    conversation lengths and the reports are identical; the flattened
    tables have the same number of rows and equal cells in every column
    both have, and the same column names when at most 15 distinct names
    occur.  With the same iteration order the two runs end in the same
    state and build the same flattened table, and a second run on the
    same object returns what the first returned. *)
Theorem engine_runs_agree (set_iter1 set_iter2 : list string -> list string)
  (self other : Processor) :
  predictions other = predictions self ->
  (forall l, NoDup (set_iter1 l)) ->
  (forall l x, In x (set_iter1 l) <-> In x l) ->
  (forall l, NoDup (set_iter2 l)) ->
  (forall l x, In x (set_iter2 l) <-> In x l) ->
  let p := predictions self in
  let run1 := process_sentiment_data set_iter1 self in
  let run2 := process_sentiment_data set_iter2 other in
  let V1 := compute_top_sentiments set_iter1 (segment_table p) in
  let V2 := compute_top_sentiments set_iter2 (segment_table p) in
  snd run2 = snd run1
  /\ (snd run1 <> None ->
      quintile_analysis (fst run2) = quintile_analysis (fst run1)
      /\ quintile_analysis (fst run1) = Some (quintile_report p)
      /\ conversation_length (fst run2) = conversation_length (fst run1)
      /\ processed_data (fst run2) = processed_data (fst run1)
      /\ top_sentiments (fst run1) = V1
      /\ top_sentiments (fst run2) = V2)
  /\ List.length (flattened_table set_iter2 p)
     = List.length (flattened_table set_iter1 p)
  /\ (forall k sr1 sr2 v,
        nth_error (flattened_table set_iter1 p) k = Some sr1 ->
        nth_error (flattened_table set_iter2 p) k = Some sr2 ->
        In v V1 -> In v V2 ->
        get_cell v sr1 = get_cell v sr2)
  /\ ((List.length (unique (inserted_sentiments (segment_table p))) <= 15)%nat ->
      forall v, In v V1 <-> In v V2)
  /\ (set_iter1 (inserted_sentiments (segment_table p))
      = set_iter2 (inserted_sentiments (segment_table p)) ->
      V1 = V2
      /\ flattened_table set_iter1 p = flattened_table set_iter2 p
      /\ (snd run1 <> None -> fst run2 = fst run1))
  /\ process_sentiment_data set_iter1 (fst run1) = run1.
Proof.
  intros Hp Hnd1 Hin1 Hnd2 Hin2 p run1 run2 V1 V2.
  assert (Hsame : set_iter1 (inserted_sentiments (segment_table p))
                  = set_iter2 (inserted_sentiments (segment_table p)) ->
                  V1 = V2).
  { intro H. unfold V1, V2, compute_top_sentiments, sentiment_counts,
      all_sentiments. now rewrite H. }
  assert (Hruns :
    snd run2 = snd run1
    /\ (snd run1 <> None ->
        fst run1 = processed_state set_iter1 p
        /\ fst run2 = processed_state set_iter2 p)
    /\ process_sentiment_data set_iter1 (fst run1) = run1).
  { unfold run1, run2.
    destruct (extract_data (predictions self)) as [|d t] eqn:E.
    - rewrite (process_sentiment_data_none set_iter1 self E).
      rewrite (process_sentiment_data_none set_iter2 other)
        by (now rewrite Hp).
      simpl. split; [reflexivity |]. split; [easy |].
      apply (process_sentiment_data_none set_iter1 self E).
    - assert (Hne : extract_data (predictions self) <> [])
        by (rewrite E; discriminate).
      rewrite (process_sentiment_data_some set_iter1 self Hne).
      rewrite (process_sentiment_data_some set_iter2 other)
        by (now rewrite Hp).
      rewrite Hp. simpl. split; [reflexivity |].
      split; [intros _; split; reflexivity |].
      apply (process_sentiment_data_some set_iter1
               (processed_state set_iter1 (predictions self)) Hne). }
  destruct Hruns as [Hframe [Hstate Hrerun]].
  split; [exact Hframe |]. split.
  { intro Hsome. destruct (Hstate Hsome) as [-> ->].
    repeat split; reflexivity. }
  split.
  { unfold flattened_table. rewrite !create_streamlined_data_rows.
    now rewrite !length_map. }
  split.
  { intros k sr1 sr2 v H1 H2 Hv1 Hv2.
    apply flattened_table_row in H1, H2.
    destruct H1 as [r [Hr ->]]. destruct H2 as [r' [Hr' ->]].
    fold p in Hr, Hr'. rewrite Hr in Hr'. injection Hr' as <-.
    fold p V1 V2. now rewrite !row_adds_present. }
  split.
  { intros Hlen v. unfold V1, V2.
    rewrite (small_vocabulary_names set_iter1 Hnd1 Hin1 _ v Hlen).
    rewrite (small_vocabulary_names set_iter2 Hnd2 Hin2 _ v Hlen).
    reflexivity. }
  split; [| exact Hrerun].
  intro H. specialize (Hsame H). split; [exact Hsame |]. split.
  - unfold flattened_table. fold p V1 V2. now rewrite Hsame.
  - intro Hsome. destruct (Hstate Hsome) as [-> ->].
    unfold processed_state. fold p V1 V2. now rewrite Hsame.
Qed.

Lemma engine_runs_agree_witness :
  let self := new_processor scenario_payload in
  let other := set_top_sentiments (new_processor scenario_payload) ["stale"%string] in
  let p := predictions self in
  let run1 := process_sentiment_data unique self in
  let run2 := process_sentiment_data reversed_unique other in
  let V1 := compute_top_sentiments unique (segment_table p) in
  let V2 := compute_top_sentiments reversed_unique (segment_table p) in
  snd run2 = snd run1
  /\ (snd run1 <> None ->
      quintile_analysis (fst run2) = quintile_analysis (fst run1)
      /\ quintile_analysis (fst run1) = Some (quintile_report p)
      /\ conversation_length (fst run2) = conversation_length (fst run1)
      /\ processed_data (fst run2) = processed_data (fst run1)
      /\ top_sentiments (fst run1) = V1
      /\ top_sentiments (fst run2) = V2)
  /\ List.length (flattened_table reversed_unique p)
     = List.length (flattened_table unique p)
  /\ (forall k sr1 sr2 v,
        nth_error (flattened_table unique p) k = Some sr1 ->
        nth_error (flattened_table reversed_unique p) k = Some sr2 ->
        In v V1 -> In v V2 ->
        get_cell v sr1 = get_cell v sr2)
  /\ ((List.length (unique (inserted_sentiments (segment_table p))) <= 15)%nat ->
      forall v, In v V1 <-> In v V2)
  /\ (unique (inserted_sentiments (segment_table p))
      = reversed_unique (inserted_sentiments (segment_table p)) ->
      V1 = V2
      /\ flattened_table unique p = flattened_table reversed_unique p
      /\ (snd run1 <> None -> fst run2 = fst run1))
  /\ process_sentiment_data unique (fst run1) = run1.
Proof.
  apply (engine_runs_agree unique reversed_unique
           (new_processor scenario_payload)
           (set_top_sentiments (new_processor scenario_payload) ["stale"%string])).
  - reflexivity.
  - exact unique_NoDup.
  - exact unique_In.
  - exact reversed_unique_NoDup.
  - exact reversed_unique_In.
Defined.

(** C9 as stated fails across iteration orders of the set: on the scenario
    payload, first-insertion order and its reverse (each lists every
    inserted name once) give vocabularies in different orders and
    flattened tables with their columns in different orders. *)
Lemma flattened_table_depends_on_set_order :
  compute_top_sentiments unique (segment_table scenario_payload)
    = ["Joy"; "Anger"; "Calm"]%string
  /\ compute_top_sentiments reversed_unique (segment_table scenario_payload)
    = ["Joy"; "Calm"; "Anger"]%string
  /\ top_sentiments
       (fst (process_sentiment_data unique (new_processor scenario_payload)))
     <> top_sentiments
          (fst (process_sentiment_data reversed_unique
                  (new_processor scenario_payload)))
  /\ map (map fst) (flattened_table unique scenario_payload)
     <> map (map fst) (flattened_table reversed_unique scenario_payload)
  /\ flattened_table unique scenario_payload
     <> flattened_table reversed_unique scenario_payload.
Proof.
  split; [vm_compute; reflexivity |].
  split; [vm_compute; reflexivity |].
  split; [vm_compute; intro H; discriminate H |].
  split; [vm_compute; intro H; discriminate H |].
  intro H.
  assert (H' : map (map fst) (flattened_table unique scenario_payload)
               = map (map fst) (flattened_table reversed_unique scenario_payload))
    by (now rewrite H).
  revert H'. vm_compute. intro H'. discriminate H'.
Qed.


(** The invariant 0 <= start_time <= end_time matters for the range: a
    span whose begin lies after every end falls outside the five buckets. *)
Lemma inverted_span_out_of_range :
  determine_quintile 10 100 0 = 25%Z.
Proof. vm_compute. reflexivity. Qed.

(* ================================================================== *)
(** * Further properties of the engine *)

(** ** Order of the sorts *)




(** ** Segments produced by the normalizer *)









(** ** The table *)



Lemma fold_end_max_attained (t : list SegmentData) (m : Q) :
  fold_left (fun m x => Qmax m (end_time x)) t m == m
  \/ exists d, In d t
       /\ fold_left (fun m x => Qmax m (end_time x)) t m == end_time d.
Proof.
  revert m. induction t as [|x t IH]; intro m; simpl.
  - left. reflexivity.
  - destruct (IH (Qmax m (end_time x))) as [H | [d [Hd H]]].
    + destruct (Q.max_dec m (end_time x)) as [E | E].
      * left. eapply Qeq_trans; [exact H | exact E].
      * right. exists x. split; [now left |].
        eapply Qeq_trans; [exact H | exact E].
    + right. exists d. split; [now right | exact H].
Qed.

(** X3. The conversation length of a non-empty table is the latest end
    time: no segment ends after it and some segment ends at it. *)
Theorem conversation_length_is_latest_end (p : Predictions) :
  extract_data p <> [] ->
  let L := end_time_max (sort_values (extract_data p)) in
  (forall d, In d (extract_data p) -> end_time d <= L)
  /\ exists d, In d (extract_data p) /\ end_time d == L.
Proof.
  intros Hne L. split.
  - intros d Hd. apply end_time_max_ge. now apply sort_values_In.
  - unfold L. destruct (sort_values (extract_data p)) as [|x t] eqn:E.
    + exfalso. apply Hne.
      destruct (extract_data p) as [|y u]; [reflexivity |].
      assert (Hy : In y (sort_values (y :: u)))
        by (apply sort_values_In; now left).
      rewrite E in Hy. easy.
    + assert (Hin : forall d, In d (x :: t) -> In d (extract_data p))
        by (intros d Hd; apply sort_values_In; now rewrite E).
      simpl. destruct (fold_end_max_attained t (end_time x)) as [H | [d [Hd H]]].
      * exists x. split; [apply Hin; now left | now symmetry].
      * exists d. split; [apply Hin; now right | now symmetry].
Qed.

Lemma conversation_length_is_latest_end_witness :
  let L := end_time_max (sort_values (extract_data scenario_payload)) in
  (forall d, In d (extract_data scenario_payload) -> end_time d <= L)
  /\ exists d, In d (extract_data scenario_payload) /\ end_time d == L.
Proof.
  apply (conversation_length_is_latest_end scenario_payload).
  vm_compute. discriminate.
Defined.

(** ** Order of the buckets *)

Lemma py_int_le (x y : Q) : x <= y -> (py_int x <= py_int y)%Z.
Proof.
  destruct x as [a b], y as [c d]. unfold py_int, Qle. simpl. intro H.
  rewrite <- (Z.quot_mul_cancel_r a (Zpos b) (Zpos d)) by lia.
  rewrite <- (Z.quot_mul_cancel_r c (Zpos d) (Zpos b)) by lia.
  rewrite (Z.mul_comm (Zpos d) (Zpos b)).
  apply Z.quot_le_mono; lia.
Qed.

Section FloatQuintileOrder.
Variable fl : Q -> Q.
Hypothesis fl_monotone : forall x y, x <= y -> fl x <= fl y.
Hypothesis fl_zero : fl 0 == 0.

(** X4. A segment with a later midpoint never lands in an earlier bucket:
    for a rounding that is monotone and keeps 0, a conversation length
    L >= 0 and two calls that return, start1 + end1 <= start2 + end2
    gives bucket1 <= bucket2. *)
Theorem quintile_monotone (L s1 e1 s2 e2 : Q) (q1 q2 : Z) :
  0 <= L ->
  s1 + e1 <= s2 + e2 ->
  float_determine_quintile fl L s1 e1 = Some q1 ->
  float_determine_quintile fl L s2 e2 = Some q2 ->
  (q1 <= q2)%Z.
Proof.
  intros HL H. unfold float_determine_quintile.
  destruct (Qeq_bool L 0) eqn:E.
  - intros H1 H2. injection H1 as <-. injection H2 as <-. lia.
  - destruct (Qeq_bool (fl (L / 5)) 0) eqn:Eq; [discriminate |].
    apply Qeq_bool_neq in Eq. cbv zeta.
    assert (Hq0 : 0 <= fl (L / 5)).
    { rewrite <- fl_zero. apply fl_monotone. apply Qle_shift_div_l; lra. }
    assert (Hq : 0 < fl (L / 5))
      by (apply Qnot_le_lt; intro; apply Eq; lra).
    assert (Hmid : fl (fl (s1 + e1) / 2) <= fl (fl (s2 + e2) / 2)).
    { apply fl_monotone. apply Qle_shift_div_l; [lra |].
      assert (Heq : fl (s1 + e1) / 2 * 2 == fl (s1 + e1)) by field.
      rewrite Heq. now apply fl_monotone. }
    assert (Hx : fl (fl (fl (s1 + e1) / 2) / fl (L / 5))
                 <= fl (fl (fl (s2 + e2) / 2) / fl (L / 5))).
    { apply fl_monotone. revert Hmid Hq Eq.
      generalize (fl (fl (s1 + e1) / 2)), (fl (fl (s2 + e2) / 2)), (fl (L / 5)).
      intros a b c Hab Hc Hc0.
      apply Qle_shift_div_l; [exact Hc |].
      assert (Heq : a / c * c == a) by (field; exact Hc0).
      rewrite Heq. exact Hab. }
    apply py_int_le in Hx. intros H1 H2.
    injection H1 as <-. injection H2 as <-.
    destruct (py_int (fl (fl (fl (s1 + e1) / 2) / fl (L / 5))) =? 5)%Z eqn:E1;
      destruct (py_int (fl (fl (fl (s2 + e2) / 2) / fl (L / 5))) =? 5)%Z eqn:E2;
      rewrite ?Z.eqb_eq, ?Z.eqb_neq in *; lia.
Qed.
End FloatQuintileOrder.

Lemma quintile_monotone_witness :
  float_determine_quintile (fun x => x) 20 0 20 = Some 2%Z
  /\ float_determine_quintile (fun x => x) 20 10 20 = Some 3%Z
  /\ (2 <= 3)%Z.
Proof.
  split; [vm_compute; reflexivity |]. split; [vm_compute; reflexivity |].
  apply (quintile_monotone (fun x => x) (fun x y H => H) (Qeq_refl 0)
           20 0 20 10 20 2 3).
  - vm_compute. discriminate.
  - vm_compute. discriminate.
  - vm_compute. reflexivity.
  - vm_compute. reflexivity.
Defined.

(** ** One speaker at a time *)

Lemma has_column_of_slot (df : list Row) (r : Row) (i : nat) (x : string * Q) :
  In r df -> (1 <= i)%nat -> slot i r = Some x -> has_column i df = true.
Proof.
  intros Hr Hi Hs. destruct (has_column i df) eqn:E; [reflexivity |].
  rewrite (no_column_no_slot df i r Hi E Hr) in Hs. discriminate.
Qed.

Lemma accumulate_slot_frame (df df' : list Row) (wt : Q) (r : Row)
  (w : list (string * Q)) (i : nat) :
  In r df -> In r df' -> (1 <= i)%nat ->
  accumulate_slot df wt r w i = accumulate_slot df' wt r w i.
Proof.
  intros H H' Hi. unfold accumulate_slot.
  destruct (slot i r) as [x |] eqn:Hs.
  - now rewrite (has_column_of_slot df r i x H Hi Hs),
               (has_column_of_slot df' r i x H' Hi Hs).
  - destruct (has_column i df), (has_column i df'); reflexivity.
Qed.

Lemma weighted_emotions_frame (df df' g : list Row) :
  incl g df -> incl g df' -> weighted_emotions df g = weighted_emotions df' g.
Proof.
  intros H H'. unfold weighted_emotions.
  apply fold_left_ext_in. intros w r Hr. unfold accumulate_segment.
  apply fold_left_ext_in. intros w' i Hi.
  apply accumulate_slot_frame;
    [now apply H | now apply H' | now apply slot_indices_pos].
Qed.

Lemma analyze_quintile_frame (L : Q) (df df' speaker_data : list Row) (q : nat) :
  incl speaker_data df -> incl speaker_data df' ->
  analyze_quintile L df speaker_data q = analyze_quintile L df' speaker_data q.
Proof.
  intros H H'. unfold analyze_quintile.
  assert (Hg : incl (quintile_rows speaker_data q) speaker_data)
    by (intros r Hr; unfold quintile_rows in Hr; now apply filter_In in Hr).
  destruct (quintile_rows speaker_data q) as [|r0 g]; [reflexivity |].
  rewrite (weighted_emotions_frame df df' (r0 :: g));
    [reflexivity | |];
    intros r Hr; [apply H | apply H']; now apply Hg.
Qed.

Lemma speaker_rows_incl (df : list Row) (speaker : string) :
  incl (speaker_rows df speaker) df.
Proof. intros r Hr. unfold speaker_rows in Hr. now apply filter_In in Hr. Qed.

(** X5. A speaker's records depend on that speaker's rows only: two frames
    with the same rows for a speaker (whatever the other speakers' rows
    are) give that speaker the same records. *)
Theorem speaker_records_independent (L : Q) (df df' : list Row) (speaker : string) :
  speaker_rows df speaker = speaker_rows df' speaker ->
  speaker_quintiles L df speaker = speaker_quintiles L df' speaker.
Proof.
  intro H. unfold speaker_quintiles. apply flat_map_ext. intro q.
  rewrite <- H.
  rewrite (analyze_quintile_frame L df df' (speaker_rows df speaker) q);
    [reflexivity | apply speaker_rows_incl |].
  rewrite H. apply speaker_rows_incl.
Qed.

Lemma speaker_records_independent_witness :
  speaker_quintiles 20 (segment_table scenario_payload) "A"
  = speaker_quintiles 20 (speaker_b_row :: segment_table scenario_payload) "A".
Proof.
  apply (speaker_records_independent 20 (segment_table scenario_payload)
           (speaker_b_row :: segment_table scenario_payload) "A").
  vm_compute. reflexivity.
Defined.

(** ** Shape of the report *)

Lemma filter_map_labels {B : Type} (f : nat -> option (string * B))
  (l : list nat) :
  (forall q e, f q = Some e -> fst e = quintile_label q) ->
  map fst (flat_map (fun q => match f q with Some e => [e] | None => [] end) l)
  = map quintile_label
      (filter (fun q => match f q with Some _ => true | None => false end) l).
Proof.
  intro Hf. induction l as [|q t IH]; simpl; [reflexivity |].
  destruct (f q) as [e |] eqn:E; simpl.
  - rewrite (Hf q e E), IH. reflexivity.
  - exact IH.
Qed.

Lemma quintile_labels_distinct : NoDup (map quintile_label (seq 0 5)).
Proof.
  vm_compute.
  repeat (constructor; [simpl; intuition discriminate |]). constructor.
Qed.

Lemma NoDup_map_filter {A B : Type} (f : A -> B) (g : A -> bool) (l : list A) :
  NoDup (map f l) -> NoDup (map f (filter g l)).
Proof.
  induction l as [|x t IH]; simpl; intro H; [constructor |].
  inversion H as [|? ? Hx Ht]; subst.
  destruct (g x); simpl; [| now apply IH].
  constructor; [| now apply IH].
  intro Hin. apply Hx. apply in_map_iff in Hin. destruct Hin as [y [Hy Hin]].
  apply filter_In in Hin. apply in_map_iff. exists y. now split.
Qed.

Lemma speaker_quintiles_labels (L : Q) (df : list Row) (sp : string) :
  map fst (speaker_quintiles L df sp)
  = map quintile_label
      (filter (fun q =>
                 match weighted_emotions df
                         (quintile_rows (speaker_rows df sp) q) with
                 | [] => false
                 | _ => true
                 end) (seq 0 5)).
Proof.
  unfold speaker_quintiles. rewrite filter_map_labels.
  - f_equal. apply filter_ext. intro q.
    destruct (analyze_quintile L df (speaker_rows df sp) q) eqn:E.
    + destruct (weighted_emotions df (quintile_rows (speaker_rows df sp) q))
        eqn:W; [| reflexivity].
      apply (proj2 (analyze_quintile_none L df (speaker_rows df sp) q)) in W.
      congruence.
    + apply (proj1 (analyze_quintile_none L df (speaker_rows df sp) q)) in E.
      now rewrite E.
  - intros q [lbl rec] He.
    now destruct (analyze_quintile_some _ _ _ _ _ _ He) as [-> _].
Qed.

(** X6. The report lists every speaker of the table once, in order of
    first appearance; a speaker has at most five records, under distinct
    labels among quintile_1 .. quintile_5 in increasing order, one for
    each bucket 0..4 whose weighted-emotion dict is not empty.  Rows whose
    bucket index is not 0..4 enter no record. *)
Theorem report_shape (L : Q) (df : list Row) :
  map fst (speakers (analyze_quintiles L df))
    = unique (map (fun r => speaker_id (seg r)) df)
  /\ NoDup (map fst (speakers (analyze_quintiles L df)))
  /\ (forall r, In r df ->
        In (speaker_id (seg r)) (map fst (speakers (analyze_quintiles L df))))
  /\ Forall (fun entry =>
        snd entry = speaker_quintiles L df (fst entry)
        /\ (List.length (snd entry) <= 5)%nat
        /\ NoDup (map fst (snd entry))
        /\ map fst (snd entry)
           = map quintile_label
               (filter (fun q =>
                          match weighted_emotions df
                                  (quintile_rows (speaker_rows df (fst entry)) q) with
                          | [] => false
                          | _ => true
                          end) (seq 0 5)))
       (speakers (analyze_quintiles L df)).
Proof.
  assert (Hnames : map fst (speakers (analyze_quintiles L df))
                   = unique (map (fun r => speaker_id (seg r)) df)).
  { unfold analyze_quintiles. cbn [speakers]. rewrite map_map. simpl.
    apply map_id. }
  split; [exact Hnames |]. split; [rewrite Hnames; apply unique_NoDup |].
  split.
  - intros r Hr. rewrite Hnames. apply unique_In.
    apply (in_map (fun r => speaker_id (seg r))). exact Hr.
  - apply Forall_forall. intros [sp entries] Hin.
    unfold analyze_quintiles in Hin. cbn [speakers] in Hin.
    apply in_map_iff in Hin. destruct Hin as [sp' [Heq _]].
    injection Heq as -> <-. cbn [fst snd].
    pose proof (speaker_quintiles_labels L df sp) as Hmap.
    split; [reflexivity |]. split; [| split].
    + rewrite <- (length_map fst), Hmap, length_map.
      eapply Nat.le_trans; [apply filter_length_le | reflexivity].
    + rewrite Hmap. apply NoDup_map_filter. exact quintile_labels_distinct.
    + exact Hmap.
Qed.
